(** * Annotations over a sampled recording (mne/annotations.py)

    A shallow embedding of [mne.annotations] and the properties of its
    merge, crop, marker-window and event-derivation algorithms.

    Conventions of the embedding:
    - Python floats and the entries of numpy float arrays are exact
      rationals ([Qc], canonical fractions, so that Leibniz equality is
      numeric equality); rounding, infinities and NaN are not modelled.
    - One-dimensional numpy arrays are lists; boolean masks are lists of
      [bool].
    - A raised exception is a value of type [exn]; a computation that can
      raise returns a [result].
    - Methods that mutate [self] are functions in the state-and-exception
      monad [meth]: the state that comes out is the object as it is left
      when the call returns or raises. *)

From Stdlib Require Import QArith Qcanon Qround Ascii.
From stdpp Require Import prelude strings gmap.

Close Scope Qc_scope.
Close Scope Q_scope.

(* ================================================================= *)
(** ** Numbers *)

(** A float literal. *)
Definition flt (q : Q) : Qc := Q2Qc q.
Arguments flt q%_Q.

(** A Python int used where a float is expected. *)
Definition of_int (z : Z) : Qc := Q2Qc (inject_Z z).

Definition Qc_ltb (x y : Qc) : bool :=
  match (x ?= y)%Qc with Lt => true | _ => false end.

Definition Qc_gtb (x y : Qc) : bool := Qc_ltb y x.

Definition Qc_eqb (x y : Qc) : bool :=
  match (x ?= y)%Qc with Eq => true | _ => false end.

Definition Qc_min (x y : Qc) : Qc := if Qc_ltb y x then y else x.
Definition Qc_max (x y : Qc) : Qc := if Qc_ltb x y then y else x.

(* ================================================================= *)
(** ** Exceptions *)

(** The [ValueError]s of the module, told apart by their message, and
    those numpy raises in the operations used here. *)
Inductive value_error : Type :=
| OnsetNotOneDimensional      (* 'Onset must be a one dimensional array' *)
| DurationNotOneDimensional   (* 'Duration must be a one dimensional array.' *)
| SizesNotEqual               (* 'Onset, duration and description must be equal in sizes.' *)
| SemicolonInDescription      (* 'Semicolons in descriptions not supported.' *)
| OrigTimeMismatch            (* 'orig_time should be the same to add/concatenate 2 annotations' *)
| TmaxLessThanTmin            (* 'tmax should be greater than tmin.' *)
| TminNegative                (* 'tmin should be positive.' *)
| NoEventsFound               (* 'Could not find any of the events you specified.' *)
| NpZeroSizeReduction         (* numpy: zero-size array to reduction operation *)
| NpBroadcast                 (* numpy: operands could not be broadcast together *)
| NpAssignShape.              (* numpy: cannot assign n input values to m output values *)

Inductive exn : Type :=
| ValueError (e : value_error)
| IndexError
| ZeroDivisionError.

Inductive result (A : Type) : Type :=
| Ok (a : A)
| Err (e : exn).
Arguments Ok {A} a.
Arguments Err {A} e.

Global Instance result_ret : MRet result := fun A a => Ok a.

Global Instance result_bind : MBind result := fun A B k r =>
  match r with Ok a => k a | Err e => Err e end.

(** The spec's error taxonomy: a shape error is one of the three
    size-and-dimension messages of the constructor; a validation error is
    the message about the separator character. *)
Definition shape_error (e : exn) : Prop :=
  e = ValueError OnsetNotOneDimensional \/
  e = ValueError DurationNotOneDimensional \/
  e = ValueError SizesNotEqual.

Definition validation_error (e : exn) : Prop :=
  e = ValueError SemicolonInDescription.

(* ================================================================= *)
(** ** Strings *)

(** [c in s] for a one-character [c]. *)
Fixpoint contains_char (c : ascii) (s : string) : bool :=
  match s with
  | EmptyString => false
  | String a s' => if Ascii.eqb a c then true else contains_char c s'
  end.

Definition semicolon : ascii := ";"%char.
Definition colon : ascii := ":"%char.

(** [s.replace(a, b)] for one-character [a] and [b]. *)
Fixpoint replace_char (a b : ascii) (s : string) : string :=
  match s with
  | EmptyString => EmptyString
  | String c s' => String (if Ascii.eqb c a then b else c) (replace_char a b s')
  end.

(** [c.upper()] and [s.upper()] on the ASCII letters. *)
Definition upper_char (c : ascii) : ascii :=
  let n := nat_of_ascii c in
  if (97 <=? n)%nat && (n <=? 122)%nat then ascii_of_nat (n - 32) else c.

Fixpoint upper (s : string) : string :=
  match s with
  | EmptyString => EmptyString
  | String c s' => String (upper_char c) (upper s')
  end.

(** [s.startswith(p)]. *)
Definition startswith (s p : string) : bool := String.prefix p s.

(** [s.split(sep)] for a one-character [sep]: the fields between the
    separators; the empty string has one, empty, field. *)
Fixpoint split_char (sep : ascii) (s : string) : list string :=
  match s with
  | EmptyString => [EmptyString]
  | String c s' =>
      if Ascii.eqb c sep then EmptyString :: split_char sep s'
      else match split_char sep s' with
           | field :: fields => String c field :: fields
           | [] => [String c EmptyString]
           end
  end.

(** [sep.join(l)] for a one-character [sep]. *)
Fixpoint join_char (sep : ascii) (l : list string) : string :=
  match l with
  | [] => EmptyString
  | [s] => s
  | s :: l' => s +:+ String sep (join_char sep l')
  end.

(* ================================================================= *)
(** ** numpy on one-dimensional arrays *)

(** A value or a sequence of values, as [np.append] and [np.delete]
    take them. *)
Inductive scalar_or_seq (A : Type) : Type :=
| One (a : A)
| Many (l : list A).
Arguments One {A} a.
Arguments Many {A} l.

Definition ravel {A : Type} (v : scalar_or_seq A) : list A :=
  match v with One a => [a] | Many l => l end.

(** [np.append(arr, values)]. *)
Definition np_append {A : Type} (arr : list A) (values : scalar_or_seq A) : list A :=
  arr ++ ravel values.

(** Elementwise binary operation with numpy's broadcasting rule for
    one-dimensional operands: equal lengths, or one operand of length 1. *)
Definition np_broadcast2 {A B C : Type} (f : A -> B -> C)
    (xs : list A) (ys : list B) : result (list C) :=
  if (length xs =? length ys)%nat then Ok (zip_with f xs ys)
  else match xs, ys with
       | [x], _ => Ok (map (f x) ys)
       | _, [y] => Ok (map (fun x => f x y) xs)
       | _, _ => Err (ValueError NpBroadcast)
       end.

(** [arr.min()] and [arr.max()]. *)
Definition np_min (arr : list Qc) : result Qc :=
  match arr with
  | [] => Err (ValueError NpZeroSizeReduction)
  | x :: l => Ok (foldl Qc_min x l)
  end.

Definition np_max (arr : list Qc) : result Qc :=
  match arr with
  | [] => Err (ValueError NpZeroSizeReduction)
  | x :: l => Ok (foldl Qc_max x l)
  end.

(** [arr[mask]] for a boolean [mask]: the entries where the mask holds;
    the mask must have the length of the array. *)
Fixpoint mask_select {A : Type} (mask : list bool) (arr : list A) : list A :=
  match mask, arr with
  | b :: mask', x :: arr' =>
      if b then x :: mask_select mask' arr' else mask_select mask' arr'
  | _, _ => []
  end.

Definition np_getmask {A : Type} (arr : list A) (mask : list bool) : result (list A) :=
  if (length mask =? length arr)%nat then Ok (mask_select mask arr)
  else Err IndexError.

(** [arr[mask] = value]. *)
Fixpoint mask_fill {A : Type} (mask : list bool) (value : A) (arr : list A) : list A :=
  match mask, arr with
  | b :: mask', x :: arr' => (if b then value else x) :: mask_fill mask' value arr'
  | _, _ => arr
  end.

Definition np_setmask {A : Type} (arr : list A) (mask : list bool) (value : A)
    : result (list A) :=
  if (length mask =? length arr)%nat then Ok (mask_fill mask value arr)
  else Err IndexError.

(** [arr[mask] = values]: the values are written, in order, where the mask
    holds; there must be as many values as places (or a single one). *)
Fixpoint mask_put {A : Type} (mask : list bool) (values : list A) (arr : list A) : list A :=
  match mask, arr with
  | true :: mask', x :: arr' =>
      match values with
      | v :: values' => v :: mask_put mask' values' arr'
      | [] => x :: mask_put mask' [] arr'
      end
  | false :: mask', x :: arr' => x :: mask_put mask' values arr'
  | _, _ => arr
  end.

(** [mask.sum()]. *)
Definition count_true (mask : list bool) : nat := length (List.filter (fun b => b) mask).

Definition np_setmask_seq {A : Type} (arr : list A) (mask : list bool) (values : list A)
    : result (list A) :=
  if (length mask =? length arr)%nat then
    if (length values =? count_true mask)%nat then Ok (mask_put mask values arr)
    else match values with
         | [v] => Ok (mask_fill mask v arr)
         | _ => Err (ValueError NpAssignShape)
         end
  else Err IndexError.

(** [arr.compress(condition)]: a condition shorter than the array selects
    among its first entries only; a true entry past the end of the array
    is out of bounds. *)
Fixpoint compress {A : Type} (condition : list bool) (arr : list A) : result (list A) :=
  match condition, arr with
  | [], _ => Ok []
  | b :: condition', x :: arr' =>
      match compress condition' arr' with
      | Ok l => Ok (if b then x :: l else l)
      | Err e => Err e
      end
  | b :: condition', [] =>
      if b then Err IndexError else compress condition' []
  end.

(** [arr[idxs]] for a list of non-negative positions. *)
Fixpoint np_take {A : Type} (arr : list A) (idxs : list nat) : result (list A) :=
  match idxs with
  | [] => Ok []
  | i :: idxs' =>
      match arr !! i with
      | Some x =>
          match np_take arr idxs' with
          | Ok l => Ok (x :: l)
          | Err e => Err e
          end
      | None => Err IndexError
      end
  end.

(** A position given as a Python int: negative values count from the
    end. *)
Definition norm_index (n : nat) (i : Z) : result nat :=
  if (0 <=? i)%Z && (i <? Z.of_nat n)%Z then Ok (Z.to_nat i)
  else if (i <? 0)%Z && (- Z.of_nat n <=? i)%Z then Ok (Z.to_nat (Z.of_nat n + i))
  else Err IndexError.

Fixpoint norm_indices (n : nat) (idx : list Z) : result (list nat) :=
  match idx with
  | [] => Ok []
  | i :: idx' =>
      match norm_index n i with
      | Ok k =>
          match norm_indices n idx' with
          | Ok ks => Ok (k :: ks)
          | Err e => Err e
          end
      | Err e => Err e
      end
  end.

Fixpoint remove_positions {A : Type} (pos : nat) (ks : list nat) (arr : list A) : list A :=
  match arr with
  | [] => []
  | x :: arr' =>
      if bool_decide (pos ∈ ks) then remove_positions (S pos) ks arr'
      else x :: remove_positions (S pos) ks arr'
  end.

(** [np.delete(arr, idx)]: the entries at the given positions are
    removed; a position outside the array raises [IndexError]. *)
Definition np_delete {A : Type} (arr : list A) (idx : scalar_or_seq Z) : result (list A) :=
  match norm_indices (length arr) (ravel idx) with
  | Ok ks => Ok (remove_positions 0 ks arr)
  | Err e => Err e
  end.

(** [order = np.argsort(keys)]: the positions of the keys in ascending
    order.  numpy does not fix the order of equal keys; here they keep
    their original order. *)
Fixpoint argsort_insert (k : Qc) (i : nat) (sorted : list (Qc * nat)) : list (Qc * nat) :=
  match sorted with
  | [] => [(k, i)]
  | (k', i') :: rest =>
      if Qc_ltb k k' then (k, i) :: sorted
      else (k', i') :: argsort_insert k i rest
  end.

Fixpoint argsort_from (pos : nat) (keys : list Qc) : list (Qc * nat) :=
  match keys with
  | [] => []
  | k :: keys' => argsort_insert k pos (argsort_from (S pos) keys')
  end.

Definition argsort (keys : list Qc) : list nat := map snd (argsort_from 0 keys).

(** Python's [/] on floats. *)
Definition py_div (x y : Qc) : result Qc :=
  if Qc_eqb y 0%Qc then Err ZeroDivisionError else Ok (x / y)%Qc.

(* ================================================================= *)
(** ** class Annotations *)

Record Annotations : Type := mkAnnotations {
  onset : list Qc;
  duration : list Qc;
  description : list string;
  orig_time : option Qc
}.

(** What [np.array(x, dtype=float)] yields for the [onset] and
    [duration] arguments: an array of dimension 0, 1, or more. *)
Inductive ndarray : Type :=
| Nd0 (x : Qc)
| Nd1 (xs : list Qc)
| Nd2 (rows : list (list Qc)).

Definition ndim (a : ndarray) : nat :=
  match a with Nd0 _ => 0 | Nd1 _ => 1 | Nd2 _ => 2 end.

(** The [description] argument: one string, or a sequence of strings. *)
Inductive description_arg : Type :=
| DescStr (s : string)
| DescSeq (l : list string).

(** The [orig_time] argument: [None], a [datetime] (given by the value of
    [time.mktime(orig_time.timetuple())]), a sequence, or a scalar. *)
Inductive orig_time_arg : Type :=
| OrigNone
| OrigDatetime (mktime : Qc)
| OrigSeq (l : list Qc)
| OrigScalar (x : Qc).

Definition million : Qc := of_int 1000000.

(** Lines 144-151. *)
Definition init_orig_time (orig_time : orig_time_arg) : result (option Qc) :=
  match orig_time with
  | OrigNone => Ok None
  | OrigDatetime t => Ok (Some t)
  | OrigSeq l =>
      match l !! 0%nat, l !! 1%nat with
      | Some s, Some us => Ok (Some (s + us / million)%Qc)
      | _, _ => Err IndexError
      end
  | OrigScalar x => Ok (Some x)
  end.

(** [Annotations.__init__], lines 142-171. *)
Definition __init__ (onset duration : ndarray) (description : description_arg)
    (orig_time : orig_time_arg) : result Annotations :=
  orig_time ← init_orig_time orig_time;
  match onset with
  | Nd1 onset =>
      let description :=
        match description with
        | DescStr s => replicate (length onset) s
        | DescSeq l => l
        end in
      match duration with
      | Nd1 duration =>
          if negb ((length onset =? length duration)%nat
                   && (length duration =? length description)%nat)
          then Err (ValueError SizesNotEqual)
          else if existsb (contains_char semicolon) description
          then Err (ValueError SemicolonInDescription)
          else Ok (mkAnnotations onset duration description orig_time)
      | _ => Err (ValueError DurationNotOneDimensional)
      end
  | _ => Err (ValueError OnsetNotOneDimensional)
  end.

(** [len(self)]. *)
Definition len (self : Annotations) : nat := length (duration self).

(** *** Methods that mutate [self] *)

Definition meth (A : Type) : Type := Annotations -> Annotations * result A.

Global Instance meth_ret : MRet meth := fun A a self => (self, Ok a).

Global Instance meth_bind : MBind meth := fun A B k m self =>
  match m self with
  | (self', Ok a) => k a self'
  | (self', Err e) => (self', Err e)
  end.

Definition get_self : meth Annotations := fun self => (self, Ok self).

Definition raise {A : Type} (e : exn) : meth A := fun self => (self, Err e).

Definition lift {A : Type} (r : result A) : meth A := fun self => (self, r).

Definition set_onset (v : list Qc) : meth unit := fun self =>
  (mkAnnotations v (duration self) (description self) (orig_time self), Ok tt).

Definition set_duration (v : list Qc) : meth unit := fun self =>
  (mkAnnotations (onset self) v (description self) (orig_time self), Ok tt).

Definition set_description (v : list string) : meth unit := fun self =>
  (mkAnnotations (onset self) (duration self) v (orig_time self), Ok tt).

Definition set_orig_time (v : option Qc) : meth unit := fun self =>
  (mkAnnotations (onset self) (duration self) (description self) v, Ok tt).

(** [a != b] on two [orig_time] values. *)
Definition orig_time_neq (a b : option Qc) : bool :=
  match a, b with
  | None, None => false
  | Some x, Some y => negb (Qc_eqb x y)
  | _, _ => true
  end.

(** [Annotations.append], lines 209-231. *)
Definition append (new_onset new_duration : scalar_or_seq Qc)
    (new_description : scalar_or_seq string) : meth unit :=
  self ← get_self;
  set_onset (np_append (onset self) new_onset);;
  set_duration (np_append (duration self) new_duration);;
  set_description (np_append (description self) new_description).

(** [Annotations.__iadd__], lines 195-207. *)
Definition __iadd__ (other : Annotations) : meth unit :=
  self ← get_self;
  (if (len self =? 0)%nat then set_orig_time (orig_time other) else mret tt);;
  self ← get_self;
  if orig_time_neq (orig_time self) (orig_time other)
  then raise (ValueError OrigTimeMismatch)
  else append (Many (onset other)) (Many (duration other)) (Many (description other)).

(** [Annotations.copy]: a deep copy of a value is the value. *)
Definition copy (self : Annotations) : Annotations := self.

(** [Annotations.__add__], lines 189-193: the result is the copy, [self]
    is not touched. *)
Definition __add__ (self other : Annotations) : result Annotations :=
  match __iadd__ other (copy self) with
  | (out, Ok _) => Ok out
  | (_, Err e) => Err e
  end.

(** [Annotations.delete], lines 237-247. *)
Definition delete (idx : scalar_or_seq Z) : meth unit :=
  self ← get_self;
  v ← lift (np_delete (onset self) idx);
  set_onset v;;
  v ← lift (np_delete (duration self) idx);
  set_duration v;;
  v ← lift (np_delete (description self) idx);
  set_description v.

(** The warnings of [crop]. *)
Inductive warning : Type :=
| Omitted (n : nat)     (* 'Omitted n annotation(s) that were outside data range.' *)
| Limited (n : nat).    (* 'Limited n annotation(s) that were expanding outside the data range.' *)

(** Line 286. *)
Definition crop_offset (self : Annotations) : Qc :=
  match orig_time self with None => 0%Qc | Some t => t end.

(** [Annotations.crop], lines 266-327; the value returned is the list of
    warnings issued. *)
Definition crop (tmin tmax : option Qc) (emit_warning : bool) : meth (list warning) :=
  self ← get_self;
  let offset := crop_offset self in
  let absolute_onset := map (fun x => (x + offset)%Qc) (onset self) in
  absolute_offset ← lift (np_broadcast2 Qcplus absolute_onset (duration self));
  tmin ← lift (match tmin with Some t => Ok t | None => np_min absolute_onset end);
  tmax ← lift (match tmax with Some t => Ok t | None => np_max absolute_offset end);
  if Qc_gtb tmin tmax then raise (ValueError TmaxLessThanTmin) else
  if Qc_ltb tmin 0%Qc then raise (ValueError TminNegative) else
  out_of_bounds ← lift (np_broadcast2 orb
                          (map (fun x => Qc_gtb x tmax) absolute_onset)
                          (map (fun x => Qc_ltb x tmin) absolute_offset));
  (* clip the left side *)
  clip_left_elem ← lift (np_broadcast2 andb
                           (map (fun x => Qc_ltb x tmin) absolute_onset)
                           (map negb out_of_bounds));
  v ← lift (np_setmask (onset self) clip_left_elem (tmin - offset)%Qc);
  set_onset v;;
  sel ← lift (np_getmask absolute_onset clip_left_elem);
  let diff := map (fun x => (tmin - x)%Qc) sel in
  self ← get_self;
  sel ← lift (np_getmask (duration self) clip_left_elem);
  v ← lift (np_broadcast2 Qcminus sel diff);
  v ← lift (np_setmask_seq (duration self) clip_left_elem v);
  set_duration v;;
  (* clip the right side *)
  clip_right_elem ← lift (np_broadcast2 andb
                            (map (fun x => Qc_gtb x tmax) absolute_offset)
                            (map negb out_of_bounds));
  sel ← lift (np_getmask absolute_offset clip_right_elem);
  let diff := map (fun x => (x - tmax)%Qc) sel in
  self ← get_self;
  sel ← lift (np_getmask (duration self) clip_right_elem);
  v ← lift (np_broadcast2 Qcminus sel diff);
  v ← lift (np_setmask_seq (duration self) clip_right_elem v);
  set_duration v;;
  (* remove out of bounds *)
  self ← get_self;
  v ← lift (compress (map negb out_of_bounds) (onset self));
  set_onset v;;
  self ← get_self;
  v ← lift (compress (map negb out_of_bounds) (duration self));
  set_duration v;;
  self ← get_self;
  v ← lift (compress (map negb out_of_bounds) (description self));
  set_description v;;
  mret (if emit_warning then
          let omitted := count_true out_of_bounds in
          let limited := (count_true clip_left_elem + count_true clip_right_elem)%nat in
          (if (0 <? omitted)%nat then [Omitted omitted] else []) ++
          (if (0 <? limited)%nat then [Limited limited] else [])
        else []).

(* ================================================================= *)
(** ** Merging the annotations of two recordings *)

(** The [meas_date] of a recording: [None], a scalar, or a sequence
    (seconds, microseconds). *)
Inductive meas_date_t : Type :=
| MeasNone
| MeasScalar (x : Qc)
| MeasSeq (l : list Qc).

(** [_handle_meas_date], lines 359-368. *)
Definition _handle_meas_date (meas_date : meas_date_t) : result Qc :=
  match meas_date with
  | MeasNone => Ok 0%Qc
  | MeasSeq l =>
      if (1 <? length l)%nat then
        match l !! 0%nat, l !! 1%nat with
        | Some s, Some us => Ok (s + us / million)%Qc
        | _, _ => Err IndexError
        end
      else
        match l !! 0%nat with
        | Some s => Ok s
        | None => Err IndexError
        end
  | MeasScalar x => Ok x
  end.

(** An [orig_time] attribute handed back to the constructor. *)
Definition orig_time_as_arg (t : option Qc) : orig_time_arg :=
  match t with None => OrigNone | Some x => OrigScalar x end.

(** [_combine_annotations], lines 330-356. *)
Definition _combine_annotations (one two : option Annotations)
    (one_n_samples one_first_samp two_first_samp : Z) (sfreq : Qc)
    (meas_date : meas_date_t) : result (option Annotations) :=
  match one, two with
  | None, None => Ok None
  | _, None => Ok one
  | _, Some two =>
      one ← match one with
            | None => __init__ (Nd1 []) (Nd1 []) (DescSeq []) OrigNone
            | Some one => Ok one
            end;
      (* 1. The shift (in time) due to concatenation *)
      shift ← py_div (of_int one_n_samples) sfreq;
      meas_date ← _handle_meas_date meas_date;
      (* 2. Shift by the difference in meas_date and one.orig_time *)
      shift ← match orig_time one with
              | Some t =>
                  q ← py_div (of_int one_first_samp) sfreq;
                  Ok ((shift + q) + (meas_date - t))%Qc
              | None => Ok shift
              end;
      (* 3. Shift by the difference in meas_date and two.orig_time *)
      shift ← match orig_time two with
              | Some t =>
                  q ← py_div (of_int two_first_samp) sfreq;
                  Ok ((shift - q) - (meas_date - t))%Qc
              | None => Ok shift
              end;
      let onset' := onset one ++ map (fun x => (x + shift)%Qc) (onset two) in
      let duration' := duration one ++ duration two in
      let description' := description one ++ description two in
      a ← __init__ (Nd1 onset') (Nd1 duration') (DescSeq description')
                   (orig_time_as_arg (orig_time one));
      Ok (Some a)
  end.

(* ================================================================= *)
(** ** The recording *)

(** What the module uses of a [Raw] object.  [time_as_index] stands for
    the method [raw.time_as_index(times, use_rounding, origin)] and
    [n_times] for [len(raw.times)]. *)
Record Raw : Type := mkRaw {
  annotations : Annotations;
  info_meas_date : meas_date_t;
  first_samp : Z;
  _first_time : Qc;
  n_times : nat;
  time_as_index : list Qc -> bool -> option Qc -> list Z
}.

(** [_sync_onset], lines 371-379. *)
Definition _sync_onset (raw : Raw) (onset : list Qc) (inverse : bool) : result (list Qc) :=
  meas_date ← _handle_meas_date (info_meas_date raw);
  match orig_time (annotations raw) with
  | None => Ok onset
  | Some t =>
      let offset := if inverse then (- _first_time raw)%Qc else _first_time raw in
      Ok (map (fun x => ((t - meas_date) - offset + x)%Qc) onset)
  end.

(** The positions of the descriptions that start, whatever the case, with
    one of the [kinds] (lines 398-400). *)
Fixpoint matching_idxs (kinds : list string) (pos : nat) (descs : list string) : list nat :=
  match descs with
  | [] => []
  | desc :: descs' =>
      if existsb (fun kind => startswith (upper desc) (upper kind)) kinds
      then pos :: matching_idxs kinds (S pos) descs'
      else matching_idxs kinds (S pos) descs'
  end.

(** [arr[-1]]. *)
Definition last_item {A : Type} (arr : list A) : result A :=
  match last arr with Some x => Ok x | None => Err IndexError end.

(** [_annotations_starts_stops], lines 382-416; [kinds] is the list of
    keywords (a single string is the list of that string). *)
Definition _annotations_starts_stops (raw : Raw) (kinds : list string) (invert : bool)
    : result (list Z * list Z) :=
  '(onsets, ends) ←
    (if (len (annotations raw) =? 0)%nat then Ok ([], [])
     else
       let idxs := matching_idxs kinds 0 (description (annotations raw)) in
       onsets ← np_take (onset (annotations raw)) idxs;
       onsets ← _sync_onset raw onsets false;
       durs ← np_take (duration (annotations raw)) idxs;
       ends ← np_broadcast2 Qcplus onsets durs;
       let order := argsort onsets in
       onsets ← np_take onsets order;
       ends ← np_take ends order;
       Ok (time_as_index raw onsets true None, time_as_index raw ends true None));
  if invert then
    let n := Z.of_nat (n_times raw) in
    let '(onsets, ends) :=
      if match onsets with [] => true | x :: _ => negb (x =? 0)%Z end
      then (0%Z :: onsets, 0%Z :: ends) else (onsets, ends) in
    extend ← (if (length ends =? 1)%nat then Ok true
              else x ← last_item ends; Ok (negb (x =? n)%Z));
    let '(onsets, ends) :=
      if extend : bool then (onsets ++ [n], ends ++ [n]) else (onsets, ends) in
    Ok (removelast ends, tail onsets)
  else Ok (onsets, ends).

(* ================================================================= *)
(** ** Events from annotations *)

(** A callable [event_id]: a Python object with its own state, called
    with a description, answering an integer or [None]. *)
Record callable : Type := mkCallable {
  cstate : Type;
  cinit : cstate;
  ccall : cstate -> string -> option Z * cstate
}.

(** The [event_id] argument. *)
Inductive event_id_t : Type :=
| EventIdNone
| EventIdDict (d : gmap string Z)
| EventIdCallable (f : callable).

(** Modelled from the spec: [mne.utils._Counter], the object used when
    [event_id] is [None], is not among the sources; the spec describes it
    as an auto-incrementing counter that assigns fresh codes.  Each call
    answers the current count and increments it; the count starts at 1. *)
Definition Counter : callable :=
  {| cstate := Z; cinit := 1%Z; ccall := fun c _ => (Some c, (c + 1)%Z) |}.

(** [event_id] once [None] has been replaced: a dict, or a callable in
    its current state. *)
Inductive resolver (S : Type) : Type :=
| IsDict (d : gmap string Z)
| IsCallable (call : S -> string -> option Z * S).
Arguments IsDict {S} d.
Arguments IsCallable {S} call.

(** The loop of lines 584-603: one turn, and the whole loop.  The state
    is [event_id_], [dropped] and the state of the callable. *)
Definition resolve_step {S : Type} (regexp_match : string -> bool) (event_id : resolver S)
    (acc : gmap string Z * list string * S) (desc : string)
    : gmap string Z * list string * S :=
  let '(event_id_, dropped, st) := acc in
  if bool_decide (is_Some (event_id_ !! desc)) then acc
  else if negb (regexp_match desc) then acc
  else match event_id with
       | IsDict d =>
           match d !! desc with
           | Some v => (<[desc := v]> event_id_, dropped, st)
           | None => acc
           end
       | IsCallable call =>
           match call st desc with
           | (Some trigger, st') => (<[desc := trigger]> event_id_, dropped, st')
           | (None, st') => (event_id_, dropped ++ [desc], st')
           end
       end.

Definition resolve_loop {S : Type} (regexp_match : string -> bool) (event_id : resolver S)
    (st : S) (descs : list string) : gmap string Z * list string * S :=
  foldl (resolve_step regexp_match event_id) (∅, [], st) descs.

(** Line 605-606: the positions of the rows whose description is a key of
    [event_id_]. *)
Fixpoint event_sel_from (event_id_ : gmap string Z) (pos : nat) (descs : list string)
    : list nat :=
  match descs with
  | [] => []
  | kk :: descs' =>
      if bool_decide (is_Some (event_id_ !! kk))
      then pos :: event_sel_from event_id_ (S pos) descs'
      else event_sel_from event_id_ (S pos) descs'
  end.

(** [[event_id_[kk] for kk in descs]]. *)
Fixpoint lookup_all (event_id_ : gmap string Z) (descs : list string) : result (list Z) :=
  match descs with
  | [] => Ok []
  | kk :: descs' =>
      match event_id_ !! kk with
      | Some v =>
          match lookup_all event_id_ descs' with
          | Ok l => Ok (v :: l)
          | Err e => Err e
          end
      | None => Err IndexError (* a KeyError; the keys come from [event_sel] *)
      end
  end.

(** [np.c_[a, b, c]] for three one-dimensional arrays: the rows of the
    three columns. *)
Definition np_c_ {A B C : Type} (a : list A) (b : list B) (c : list C)
    : result (list (A * B * C)) :=
  if (length a =? length b)%nat && (length b =? length c)%nat
  then Ok (zip (zip a b) c)
  else Err (ValueError NpBroadcast).

(** What is returned as the second component: the argument itself on the
    early return of line 571, the dict [event_id_] otherwise. *)
Inductive event_id_out : Type :=
| Unchanged (event_id : event_id_t)
| Resolved (event_id_ : gmap string Z).

(** The body of [events_from_annotations] after line 582, for an
    [event_id] that is a dict or a callable in state [st]. *)
Definition events_with {S : Type} (raw : Raw) (event_id : resolver S) (st : S)
    (regexp : option (string -> bool)) (use_rounding : bool)
    : result (list (Z * Z * Z) * event_id_out) :=
  let annotations := annotations raw in
  let inds := map (fun i => (i + first_samp raw)%Z)
                  (time_as_index raw (onset annotations) use_rounding
                                 (orig_time annotations)) in
  (* Filter out the annotations that do not match regexp *)
  let regexp_match := match regexp with None => fun _ => true | Some p => p end in
  let '(event_id_, dropped, _) :=
    resolve_loop regexp_match event_id st (description annotations) in
  let event_sel := event_sel_from event_id_ 0 (description annotations) in
  if (length event_sel =? 0)%nat && bool_decide (is_Some regexp)
  then Err (ValueError NoEventsFound)
  else
    descs ← np_take (description annotations) event_sel;
    values ← lookup_all event_id_ descs;
    inds ← np_take inds event_sel;
    let previous_value := replicate (length event_sel) 0%Z in
    events ← np_c_ inds previous_value values;
    Ok (events, Resolved event_id_).

(** [events_from_annotations], lines 536-620.  [regexp] is [None] or the
    predicate [regexp_comp.match(desc) is not None] of the compiled
    pattern; the default pattern '.*' matches every description. *)
Definition events_from_annotations (raw : Raw) (event_id : event_id_t)
    (regexp : option (string -> bool)) (use_rounding : bool)
    : result (list (Z * Z * Z) * event_id_out) :=
  if (len (annotations raw) =? 0)%nat then Ok ([], Unchanged event_id)
  else
    match event_id with
    | EventIdNone =>
        events_with raw (IsCallable (ccall Counter)) (cinit Counter) regexp use_rounding
    | EventIdDict d =>
        events_with raw (IsDict d) tt regexp use_rounding
    | EventIdCallable f =>
        events_with raw (IsCallable (ccall f)) (cinit f) regexp use_rounding
    end.

(* ================================================================= *)
(** ** Specification-side definitions *)

(** The invariant of the data model: the three sequences have one
    length. *)
Definition sizes_equal (a : Annotations) : Prop :=
  length (onset a) = length (duration a) /\
  length (duration a) = length (description a).

(** A valid annotation set: the invariant, and no description contains
    the separator. *)
Definition valid (a : Annotations) : Prop :=
  sizes_equal a /\
  Forall (fun d => contains_char semicolon d = false) (description a).

(** The descriptions of the rows of a set under construction: a single
    string stands for one copy per onset. *)
Definition descriptions_of (onset : list Qc) (description : description_arg) : list string :=
  match description with
  | DescStr s => replicate (length onset) s
  | DescSeq l => l
  end.

(** The rows of a set, and the set of given rows. *)
Definition row : Type := Qc * Qc * string.

Definition rows_of (a : Annotations) : list row :=
  zip (zip (onset a) (duration a)) (description a).

Definition row_onset (r : row) : Qc := r.1.1.
Definition row_duration (r : row) : Qc := r.1.2.
Definition row_description (r : row) : string := r.2.

Definition of_rows (rows : list row) (orig : option Qc) : Annotations :=
  mkAnnotations (map row_onset rows) (map row_duration rows)
                (map row_description rows) orig.

(** What [crop] does to one row, for bounds [tmin] and [tmax]: the
    row-wise reading of lines 299-315. *)
Definition crop_row (offset tmin tmax : Qc) (r : row) : option row :=
  let absolute_onset := (row_onset r + offset)%Qc in
  let absolute_offset := (absolute_onset + row_duration r)%Qc in
  let out_of_bounds := Qc_gtb absolute_onset tmax || Qc_ltb absolute_offset tmin in
  let clip_left := Qc_ltb absolute_onset tmin && negb out_of_bounds in
  let clip_right := Qc_gtb absolute_offset tmax && negb out_of_bounds in
  let onset1 := if clip_left then (tmin - offset)%Qc else row_onset r in
  let duration1 :=
    if clip_left then (row_duration r - (tmin - absolute_onset))%Qc else row_duration r in
  let duration2 :=
    if clip_right then (duration1 - (absolute_offset - tmax))%Qc else duration1 in
  if negb out_of_bounds then Some (onset1, duration2, row_description r) else None.

(** The classification of a row as the specification words it: dropped
    when it starts after [tmax] or ends before [tmin]; otherwise, when it
    starts before [tmin], its onset is raised to [tmin - offset] and its
    duration shrinks by the amount the onset was raised; and when it ends
    after [tmax], its duration is the one that makes it end at [tmax]. *)
Definition crop_row_spec (offset tmin tmax : Qc) (r : row) : option row :=
  let absolute_onset := (row_onset r + offset)%Qc in
  let absolute_end := (absolute_onset + row_duration r)%Qc in
  if bool_decide ((tmax < absolute_onset)%Qc \/ (absolute_end < tmin)%Qc) then None
  else
    let clipped_left := bool_decide (absolute_onset < tmin)%Qc in
    let clipped_right := bool_decide (tmax < absolute_end)%Qc in
    let new_onset := if clipped_left then (tmin - offset)%Qc else row_onset r in
    let new_duration :=
      if clipped_right then (tmax - (new_onset + offset))%Qc
      else if clipped_left then (row_duration r - (new_onset - row_onset r))%Qc
      else row_duration r in
    Some (new_onset, new_duration, row_description r).

(** The bounds of [crop] once resolved (lines 290-291). *)
Definition resolved_tmin (a : Annotations) (tmin : option Qc) : result Qc :=
  match tmin with
  | Some t => Ok t
  | None => np_min (map (fun r => (row_onset r + crop_offset a)%Qc) (rows_of a))
  end.

Definition resolved_tmax (a : Annotations) (tmax : option Qc) : result Qc :=
  match tmax with
  | Some t => Ok t
  | None => np_max (map (fun r => (row_onset r + crop_offset a + row_duration r)%Qc)
                        (rows_of a))
  end.

(** *** The cross-recording merge *)

(** The synthetic empty set that stands for an absent first set. *)
Definition empty_annotations : Annotations := mkAnnotations [] [] [] None.

(** The shift of the specification: [n / sfreq], plus
    [first_samp / sfreq + m - origin] of the first set when it has an
    origin, minus the same correction for the second set. *)
Definition shift_spec (a b : Annotations) (one_n_samples one_first_samp two_first_samp : Z)
    (sfreq m : Qc) : Qc :=
  (of_int one_n_samples / sfreq
   + match orig_time a with
     | Some t => of_int one_first_samp / sfreq + m - t
     | None => 0
     end
   - match orig_time b with
     | Some t => of_int two_first_samp / sfreq + m - t
     | None => 0
     end)%Qc.

(** The merged set: the onsets of [b] shifted, durations and descriptions
    concatenated, the origin of [a]. *)
Definition merged (a b : Annotations) (shift : Qc) : Annotations :=
  mkAnnotations (onset a ++ map (fun x => (x + shift)%Qc) (onset b))
                (duration a ++ duration b)
                (description a ++ description b)
                (orig_time a).

(** *** Marker windows *)

(** The pairs [(ends[i], onsets[i+1])] for the consecutive positions
    [i], [i+1]. *)
Definition consecutive_pairs (ends onsets : list Z) : list (Z * Z) :=
  omap (fun i => e ← ends !! i; o ← onsets !! S i; Some (e, o))
       (seq 0 (length ends - 1)).

(** A leading boundary is called for when the first match does not start
    at index 0 (or there is no match). *)
Definition leading_boundary (onsets : list Z) : bool :=
  match head onsets with Some x => negb (x =? 0)%Z | None => true end.

(** A trailing boundary is called for when the last match does not reach
    [n] (or there is no match). *)
Definition trailing_boundary (n : Z) (ends : list Z) : bool :=
  match last ends with Some x => negb (x =? n)%Z | None => true end.

(** The only match starts at index 0. *)
Definition single_match_at_start (onsets : list Z) : bool :=
  match onsets with [x] => (x =? 0)%Z | _ => false end.

(** The complement of the matched intervals over [0, n], for given
    decisions on the two boundaries. *)
Definition complement_with (leading trailing : bool) (n : Z) (onsets ends : list Z)
    : list (Z * Z) :=
  let pre := if leading then [0%Z] else [] in
  let post := if trailing then [n] else [] in
  consecutive_pairs (pre ++ ends ++ post) (pre ++ onsets ++ post).

(** The intervals given by a pair of arrays. *)
Definition intervals (p : list Z * list Z) : list (Z * Z) := zip p.1 p.2.

(** A recording sampled at 1 Hz from time 0, whose time-to-index
    conversion rounds to the nearest sample: used for examples. *)
Definition round_nearest (t : Qc) : Z := Qfloor (t + flt 0.5)%Qc.

Definition raw_1hz (a : Annotations) (n : nat) : Raw :=
  {| annotations := a;
     info_meas_date := MeasNone;
     first_samp := 0;
     _first_time := 0%Qc;
     n_times := n;
     time_as_index := fun times _ _ => map round_nearest times |}.

(** The claim on inverted extraction with the rule for the trailing
    boundary as first stated: inserted iff the last match does not reach
    [n]. *)
Definition inverted_as_stated (raw : Raw) (kinds : list string) : Prop :=
  forall on en,
    _annotations_starts_stops raw kinds false = Ok (on, en) ->
    let n := Z.of_nat (n_times raw) in
    exists os es,
      _annotations_starts_stops raw kinds true = Ok (os, es) /\
      intervals (os, es) =
        complement_with (leading_boundary on) (trailing_boundary n en) n on en.

(** Ten samples, all of them covered by one 'bad' segment. *)
Definition raw_all_bad : Raw :=
  raw_1hz (mkAnnotations [flt 0] [flt 10] ["bad"] None) 10.

(** The claim on the merge as first stated: when exactly one set is
    absent the result is the other one, verbatim. *)
Definition merge_as_stated (one two : option Annotations)
    (one_n_samples one_first_samp two_first_samp : Z) (sfreq : Qc)
    (meas_date : meas_date_t) : Prop :=
  forall m, _handle_meas_date meas_date = Ok m ->
  _combine_annotations one two one_n_samples one_first_samp two_first_samp
                       sfreq meas_date =
    Ok (match one, two with
        | None, None => None
        | Some a, None => Some a
        | None, Some b => Some b
        | Some a, Some b =>
            Some (merged a b (shift_spec a b one_n_samples one_first_samp
                                         two_first_samp sfreq m))
        end).

(** One annotation at 0.5 s, without origin. *)
Definition half_second : Annotations :=
  mkAnnotations [flt 0.5] [flt 1] ["x"] None.

(** *** Events *)

(** The map [event_id_] the loop ends with, for each kind of
    [event_id]. *)
Definition resolved_map (descs : list string) (event_id : event_id_t)
    (regexp_match : string -> bool) : gmap string Z :=
  match event_id with
  | EventIdNone =>
      (resolve_loop regexp_match (IsCallable (ccall Counter)) (cinit Counter) descs).1.1
  | EventIdDict d => (resolve_loop regexp_match (IsDict d) tt descs).1.1
  | EventIdCallable f =>
      (resolve_loop regexp_match (IsCallable (ccall f)) (cinit f) descs).1.1
  end.

(** The predicate of the pattern in use: everything matches the default
    pattern. *)
Definition pattern_of (regexp : option (string -> bool)) : string -> bool :=
  match regexp with None => fun _ => true | Some p => p end.

(** The rows that survive the pattern and the code map: those whose
    description is given a code. *)
Definition surviving_rows (raw : Raw) (event_id : event_id_t)
    (regexp : option (string -> bool)) : list nat :=
  let descs := description (annotations raw) in
  event_sel_from (resolved_map descs event_id (pattern_of regexp)) 0 descs.

(** With a mapping as code map, a row survives when its description
    matches the pattern and is a key of the mapping. *)
Definition survives (d : gmap string Z) (p : string -> bool) (desc : string) : bool :=
  p desc && bool_decide (is_Some (d !! desc)).

(** The events of the surviving rows, in the order of the rows:
    [sample index + first_samp, 0, code]. *)
Definition dict_events (raw : Raw) (d : gmap string Z) (p : string -> bool)
    (use_rounding : bool) : list (Z * Z * Z) :=
  let a := annotations raw in
  omap (fun '(i, desc) =>
          if p desc then v ← d !! desc; Some ((i + first_samp raw)%Z, 0%Z, v) else None)
       (zip (time_as_index raw (onset a) use_rounding (orig_time a)) (description a)).

(** The claim on the failure for want of events as first stated: any call
    with an explicit pattern and no surviving row fails. *)
Definition no_events_as_stated (raw : Raw) (event_id : event_id_t)
    (regexp : option (string -> bool)) (use_rounding : bool) : Prop :=
  is_Some regexp ->
  surviving_rows raw event_id regexp = [] ->
  events_from_annotations raw event_id regexp use_rounding =
    Err (ValueError NoEventsFound).

(** A recording without annotations, and one with rows 'a', 'b', 'a'. *)
Definition raw_empty : Raw := raw_1hz empty_annotations 10.

Definition raw_aba : Raw :=
  raw_1hz (mkAnnotations [flt 1; flt 2; flt 3] [flt 0; flt 0; flt 0] ["a"; "b"; "a"] None) 10.

(** The description [kk] is a key of the resolved map: the row is selected
    by [event_sel]. *)
Definition has_code (m : gmap string Z) (kk : string) : bool :=
  bool_decide (is_Some (m !! kk)).

(** One 'bad' segment from 0 s to 10 s, without origin. *)
Definition ten_seconds : Annotations :=
  mkAnnotations [flt 0] [flt 10] ["bad"] None.

(** *** Decidable equality, and sets for the examples *)

Global Instance value_error_eq_dec : EqDecision value_error.
Proof. solve_decision. Defined.

Global Instance exn_eq_dec : EqDecision exn.
Proof. solve_decision. Defined.

Global Instance result_eq_dec {A : Type} `{EqDecision A} : EqDecision (result A).
Proof. solve_decision. Defined.

Global Instance Annotations_eq_dec : EqDecision Annotations.
Proof. solve_decision. Defined.

Global Instance warning_eq_dec : EqDecision warning.
Proof. solve_decision. Defined.

(** Four rows: one across the window [2, 5], one after it, one before it,
    one inside it. *)
Definition four_rows : Annotations :=
  mkAnnotations [flt 0; flt 6; flt 0; flt 3] [flt 10; flt 1; flt 1; flt 1]
                ["bad"; "late"; "early"; "inside"] None.

(** One annotation at 1 s, with the origin [t]. *)
Definition with_origin (t : Q) : Annotations :=
  mkAnnotations [flt 1] [flt 1] ["x"] (Some (flt t)).

(* ================================================================= *)
(** ** Further definitions: the rest of the module *)

From Stdlib Require Import Lqa Sorted.

(** *** crop, row by row *)

(** The three masks of [crop] for one row (lines 299, 302 and 308). *)
Definition row_out_of_bounds (offset tmin tmax : Qc) (r : row) : bool :=
  Qc_gtb (row_onset r + offset)%Qc tmax
  || Qc_ltb (row_onset r + offset + row_duration r)%Qc tmin.

Definition row_clip_left (offset tmin tmax : Qc) (r : row) : bool :=
  Qc_ltb (row_onset r + offset)%Qc tmin && negb (row_out_of_bounds offset tmin tmax r).

Definition row_clip_right (offset tmin tmax : Qc) (r : row) : bool :=
  Qc_gtb (row_onset r + offset + row_duration r)%Qc tmax
  && negb (row_out_of_bounds offset tmin tmax r).

(** The warnings of lines 317-325, from the rows. *)
Definition crop_warnings (offset tmin tmax : Qc) (rows : list row) (emit_warning : bool)
    : list warning :=
  if emit_warning then
    let omitted := length (List.filter (row_out_of_bounds offset tmin tmax) rows) in
    let limited := (length (List.filter (row_clip_left offset tmin tmax) rows)
                    + length (List.filter (row_clip_right offset tmin tmax) rows))%nat in
    (if (0 <? omitted)%nat then [Omitted omitted] else []) ++
    (if (0 <? limited)%nat then [Limited limited] else [])
  else [].

(** A row lies within the window: it starts and ends between [lo] and
    [hi], in absolute time. *)
Definition row_within (offset lo hi : Qc) (r : row) : Prop :=
  (lo <= row_onset r + offset)%Qc /\ (row_onset r + offset <= hi)%Qc /\
  (lo <= row_onset r + offset + row_duration r)%Qc /\
  (row_onset r + offset + row_duration r <= hi)%Qc.

(** *** the order [np.argsort] establishes, on the keys paired with their positions *)
Definition by_key (p q : Qc * nat) : Prop := (p.1 <= q.1)%Qc.

(** *** events, row by row *)

(** The event of one row under the code map [m]: the sample of its onset
    moved by [first_samp], a zero, and the code of its description; no
    event when the description has no code. *)
Definition event_of_row (raw : Raw) (m : gmap string Z) (r : Z * string)
    : option (Z * Z * Z) :=
  v ← m !! r.2; Some ((r.1 + first_samp raw)%Z, 0%Z, v).

(** A callable without state of its own: a plain function. *)
Definition stateless (f : string -> option Z) : callable :=
  {| cstate := unit; cinit := tt; ccall := fun st desc => (f desc, st) |}.

(** A callable that never answers [None]. *)
Definition always_answers (f : callable) : Prop :=
  forall st desc, is_Some (ccall f st desc).1.

(* ================================================================= *)
(** ** Reading annotations *)

(** What the two readers can raise beyond the exceptions of the rest of
    the module. *)
Inductive read_error : Type :=
| NeedArrayToConcatenate   (* numpy ValueError: need at least one array to concatenate *)
| AssertionError           (* the assert of line 519 *)
| Other (e : exn).

Inductive outcome (A : Type) : Type :=
| Returns (a : A)
| Raises (e : read_error).
Arguments Returns {A} a.
Arguments Raises {A} e.

Definition of_result {A : Type} (r : result A) : outcome A :=
  match r with Ok a => Returns a | Err e => Raises (Other e) end.

(** [arr[i]] on the first axis. *)
Definition item {A : Type} (arr : list A) (i : nat) : result A :=
  match arr !! i with Some x => Ok x | None => Err IndexError end.

(** [np.concatenate(arrays)] for one-dimensional arrays. *)
Definition np_concatenate {A : Type} (arrays : list (list A)) : outcome (list A) :=
  match arrays with
  | [] => Raises NeedArrayToConcatenate
  | _ => Returns (concat arrays)
  end.

(** *** read_brainstorm_annotations, lines 454-491

    The file is what [io.loadmat] makes of it: [annot_data['events'][0]]
    is a sequence of events, of which the function uses the label (an
    array of strings) and the times (a two-dimensional array, here the
    list of its rows). *)
Record brainstorm_event : Type := mkBrainstormEvent {
  label : list string;
  times : list (list Qc)
}.

Definition get_duration_from_times (t : list (list Qc)) : result (list Qc) :=
  if (length t =? 2)%nat
  then t1 ← item t 1; t0 ← item t 0; np_broadcast2 Qcminus t1 t0
  else t0 ← item t 0; Ok (replicate (length t0) 0%Qc).

(** The loop of lines 482-486 on [onsets], [durations] and
    [descriptions]. *)
Fixpoint brainstorm_loop (acc : list (list Qc) * list (list Qc) * list string)
    (events : list brainstorm_event)
    : result (list (list Qc) * list (list Qc) * list string) :=
  match events with
  | [] => Ok acc
  | ev :: events' =>
      let '(onsets, durations, descriptions) := acc in
      t0 ← item (times ev) 0;
      d ← get_duration_from_times (times ev);
      let n_annot := length t0 in
      l ← item (label ev) 0;
      brainstorm_loop (onsets ++ [t0], durations ++ [d],
                       descriptions ++ replicate n_annot l) events'
  end.

Definition read_brainstorm_annotations (events : list brainstorm_event)
    (orig_time : orig_time_arg) : outcome Annotations :=
  match brainstorm_loop ([], [], []) events with
  | Err e => Raises (Other e)
  | Ok (onsets, durations, descriptions) =>
      match np_concatenate onsets with
      | Raises e => Raises e
      | Returns onset =>
          match np_concatenate durations with
          | Raises e => Raises e
          | Returns duration =>
              of_result (__init__ (Nd1 onset) (Nd1 duration) (DescSeq descriptions)
                                  orig_time)
          end
      end
  end.

(** The rows an event stands for: one per time, with the duration between
    the two rows of times when there are two, and zero otherwise. *)
Definition brainstorm_rows (ev : brainstorm_event) : list row :=
  match times ev, label ev with
  | [t0; t1], l :: _ => zip_with (fun x y => (x, (y - x)%Qc, l)) t0 t1
  | t0 :: _, l :: _ => map (fun x => (x, 0%Qc, l)) t0
  | _, _ => []
  end.

(** An event as [io.loadmat] gives it: a label, at least one row of times,
    and rows of one length. *)
Definition well_formed (ev : brainstorm_event) : Prop :=
  label ev <> [] /\ times ev <> [] /\
  forall t0 t1, times ev = [t0; t1] -> length t0 = length t1.

(** *** _read_annotations, lines 494-522

    The tree and the file are what [dir_tree_find] and [read_tag] make of
    them: the annotation blocks found, each the sequence of the tags of its
    directory, a tag of one of the four kinds the function looks at coming
    with data of the type of that kind. *)
Inductive tag : Type :=
| FIFF_MNE_BASELINE_MIN (data : option (list Qc))
| FIFF_MNE_BASELINE_MAX (data : option (list Qc))
| FIFF_COMMENT (data : string)
| FIFF_MEAS_DATE (data : Qc)
| FIFF_OTHER.

(** One turn of the loop of lines 503-518, on [onset], [duration],
    [description] and [orig_time]. *)
Definition read_entry (acc : list Qc * list Qc * list string * option Qc) (ent : tag)
    : result (list Qc * list Qc * list string * option Qc) :=
  let '(onset, duration, description, orig_time) := acc in
  match ent with
  | FIFF_MNE_BASELINE_MIN data =>
      Ok (match data with None => [] | Some onset => onset end,
          duration, description, orig_time)
  | FIFF_MNE_BASELINE_MAX data =>
      match data with
      | None => Ok (onset, [], description, orig_time)
      | Some duration =>
          duration ← np_broadcast2 Qcminus duration onset;
          Ok (onset, duration, description, orig_time)
      end
  | FIFF_COMMENT data =>
      let description := split_char colon data in
      Ok (onset, duration, map (replace_char semicolon colon) description, orig_time)
  | FIFF_MEAS_DATE data => Ok (onset, duration, description, Some data)
  | FIFF_OTHER => Ok acc
  end.

Fixpoint read_entries (acc : list Qc * list Qc * list string * option Qc)
    (directory : list tag) : result (list Qc * list Qc * list string * option Qc) :=
  match directory with
  | [] => Ok acc
  | ent :: directory' => acc ← read_entry acc ent; read_entries acc directory'
  end.

Definition _read_annotations (annot_data : list (list tag)) : outcome (option Annotations) :=
  match annot_data with
  | [] => Returns None
  | directory :: _ =>
      match read_entries ([], [], [], None) directory with
      | Err e => Raises (Other e)
      | Ok (onset, duration, description, orig_time) =>
          if negb ((length onset =? length duration)%nat
                   && (length duration =? length description)%nat)
          then Raises AssertionError
          else match __init__ (Nd1 onset) (Nd1 duration) (DescSeq description)
                              (orig_time_as_arg orig_time) with
               | Ok annotations => Returns (Some annotations)
               | Err e => Raises (Other e)
               end
      end
  end.

(** The tag of the origin in a block: none for an absent origin. *)
Definition meas_date_tags (orig_time : option Qc) : list tag :=
  match orig_time with None => [] | Some t => [FIFF_MEAS_DATE t] end.

Definition has_comment (directory : list tag) : bool :=
  existsb (fun ent => match ent with FIFF_COMMENT _ => true | _ => false end) directory.

(* ================================================================= *)
(** * Properties *)

(** ** Numbers *)

Lemma Qc_ltb_lt (x y : Qc) : Qc_ltb x y = true <-> (x < y)%Qc.
Proof.
  unfold Qc_ltb. rewrite Qclt_alt. destruct (x ?= y)%Qc; split; congruence.
Qed.

Lemma Qc_ltb_ge (x y : Qc) : Qc_ltb x y = false <-> (y <= x)%Qc.
Proof.
  rewrite <- not_true_iff_false, Qc_ltb_lt. split.
  - apply Qcnot_lt_le.
  - apply Qcle_not_lt.
Qed.

Lemma Qc_eqb_eq (x y : Qc) : Qc_eqb x y = true <-> x = y.
Proof.
  unfold Qc_eqb. rewrite Qceq_alt. destruct (x ?= y)%Qc; split; congruence.
Qed.

Lemma Qc_eqb_neq (x y : Qc) : Qc_eqb x y = false <-> x <> y.
Proof. rewrite <- not_true_iff_false, Qc_eqb_eq. tauto. Qed.

(** ** The constructor *)

Lemma existsb_semicolon (l : list string) :
  existsb (contains_char semicolon) l = true <->
  Exists (fun d => contains_char semicolon d = true) l.
Proof.
  rewrite existsb_exists, Exists_exists. split; intros (d & Hin & Hd); exists d.
  - by rewrite list_elem_of_In.
  - by rewrite <- list_elem_of_In.
Qed.

Lemma init_1d (on du : list Qc) (description : description_arg)
    (orig_time : orig_time_arg) (t : option Qc) :
  init_orig_time orig_time = Ok t ->
  __init__ (Nd1 on) (Nd1 du) description orig_time =
    let descs := descriptions_of on description in
    if negb ((length on =? length du)%nat && (length du =? length descs)%nat)
    then Err (ValueError SizesNotEqual)
    else if existsb (contains_char semicolon) descs
    then Err (ValueError SemicolonInDescription)
    else Ok (mkAnnotations on du descs t).
Proof. intros Ht. unfold __init__. rewrite Ht. reflexivity. Qed.

(** C7. Construction fails with a shape error when [onset] is not
    one-dimensional, when [duration] is not one-dimensional, or when the
    lengths of onset, duration and description differ.  It fails when the
    description of a row contains ';', and then with the validation error
    whenever the shape checks pass (the checks come in this order, and
    all four errors are [ValueError]s).  A single string as description
    is first repeated once per onset, so that it never differs in length
    from the onset: with a single string the size error is raised exactly
    when onset and duration differ in length.  When no check fails the
    set is built from the arguments as they are. *)
Theorem init_errors (onset duration : ndarray) (description : description_arg)
    (orig_time : orig_time_arg) (t : option Qc) :
  init_orig_time orig_time = Ok t ->
  (ndim onset <> 1 ->
     exists e, __init__ onset duration description orig_time = Err e /\ shape_error e) /\
  (ndim duration <> 1 ->
     exists e, __init__ onset duration description orig_time = Err e /\ shape_error e) /\
  (forall on du,
     onset = Nd1 on -> duration = Nd1 du ->
     let descs := descriptions_of on description in
     (~ (length on = length du /\ length du = length descs) ->
        exists e, __init__ onset duration description orig_time = Err e /\ shape_error e) /\
     (Exists (fun d => contains_char semicolon d = true) descs ->
        exists e, __init__ onset duration description orig_time = Err e /\
                  (length on = length du /\ length du = length descs -> validation_error e)) /\
     (forall s, description = DescStr s ->
        length descs = length on /\
        (__init__ onset duration description orig_time = Err (ValueError SizesNotEqual)
           <-> length on <> length du)) /\
     (length on = length du -> length du = length descs ->
      Forall (fun d => contains_char semicolon d = false) descs ->
        __init__ onset duration description orig_time =
          Ok (mkAnnotations on du descs t))).
Proof.
  intros Ht. split; [|split].
  - intros Hn. exists (ValueError OnsetNotOneDimensional).
    split; [|unfold shape_error; tauto].
    unfold __init__. rewrite Ht. destruct onset; simpl in Hn; done.
  - intros Hn. unfold __init__. rewrite Ht. destruct onset as [x|on|rows].
    + eexists. split; [done|]. unfold shape_error; tauto.
    + exists (ValueError DurationNotOneDimensional).
      split; [|unfold shape_error; tauto].
      destruct duration; simpl in Hn; done.
    + eexists. split; [done|]. unfold shape_error; tauto.
  - intros on du -> -> descs. rewrite (init_1d _ _ _ _ _ Ht). cbv zeta. fold descs.
    destruct (decide (length on = length du)) as [H1|H1];
      [destruct (decide (length du = length descs)) as [H2|H2]|].
    + rewrite (proj2 (Nat.eqb_eq _ _) H1), (proj2 (Nat.eqb_eq _ _) H2). cbn [andb negb].
      split; [tauto|]. split; [|split].
      * intros Hex. apply existsb_semicolon in Hex. rewrite Hex.
        eexists. split; [done|]. by intros _.
      * intros s ->. split; [apply length_replicate|].
        split; [|tauto].
        destruct (existsb (contains_char semicolon) descs); discriminate.
      * intros _ _ Hall.
        destruct (existsb (contains_char semicolon) descs) eqn:Hex; [|done].
        apply existsb_semicolon in Hex. apply Exists_exists in Hex as (d & Hd & Hc).
        rewrite Forall_forall in Hall. specialize (Hall d Hd). congruence.
    + rewrite (proj2 (Nat.eqb_eq _ _) H1), (proj2 (Nat.eqb_neq _ _) H2). cbn [andb negb].
      split; [|split; [|split]].
      * intros _. eexists. split; [done|]. unfold shape_error; tauto.
      * intros _. eexists. split; [done|]. tauto.
      * intros s ->. exfalso. apply H2. subst descs. simpl.
        by rewrite length_replicate.
      * tauto.
    + rewrite (proj2 (Nat.eqb_neq _ _) H1). cbn [andb negb].
      split; [|split; [|split]].
      * intros _. eexists. split; [done|]. unfold shape_error; tauto.
      * intros _. eexists. split; [done|]. tauto.
      * intros s ->. split; [apply length_replicate|]. tauto.
      * tauto.
Qed.

Lemma init_errors_witness :
  init_orig_time OrigNone = Ok None /\
  exists e, __init__ (Nd0 (flt 1)) (Nd1 [flt 2]) (DescStr "bad") OrigNone = Err e /\
            shape_error e.
Proof.
  split; [reflexivity|].
  apply (proj1 (init_errors (Nd0 (flt 1)) (Nd1 [flt 2]) (DescStr "bad") OrigNone None
                            eq_refl)).
  simpl. discriminate.
Defined.

(** ** numpy operations on columns of one table

    Every array [crop] handles is a column [map g rows] of the rows of
    the set; on such columns the operations never fail and act row by
    row. *)

Section arrays.
Context {R A B C : Type}.

Lemma zip_with_map (f : A -> B -> C) (g : R -> A) (h : R -> B) (l : list R) :
  zip_with f (map g l) (map h l) = map (fun x => f (g x) (h x)) l.
Proof. induction l as [|x l IH]; simpl; [done|]. by rewrite IH. Qed.

Lemma np_broadcast2_map (f : A -> B -> C) (g : R -> A) (h : R -> B) (l : list R) :
  np_broadcast2 f (map g l) (map h l) = Ok (map (fun x => f (g x) (h x)) l).
Proof.
  unfold np_broadcast2. rewrite !length_map, Nat.eqb_refl. by rewrite zip_with_map.
Qed.

Lemma mask_select_map (m : R -> bool) (g : R -> A) (l : list R) :
  mask_select (map m l) (map g l) = map g (List.filter m l).
Proof.
  induction l as [|x l IH]; simpl; [done|]. rewrite IH. by destruct (m x).
Qed.

Lemma np_getmask_map (m : R -> bool) (g : R -> A) (l : list R) :
  np_getmask (map g l) (map m l) = Ok (map g (List.filter m l)).
Proof.
  unfold np_getmask. by rewrite !length_map, Nat.eqb_refl, mask_select_map.
Qed.

Lemma mask_fill_map (m : R -> bool) (v : A) (g : R -> A) (l : list R) :
  mask_fill (map m l) v (map g l) = map (fun x => if m x then v else g x) l.
Proof. induction l as [|x l IH]; simpl; [done|]. by rewrite IH. Qed.

Lemma np_setmask_map (m : R -> bool) (v : A) (g : R -> A) (l : list R) :
  np_setmask (map g l) (map m l) v = Ok (map (fun x => if m x then v else g x) l).
Proof.
  unfold np_setmask. by rewrite !length_map, Nat.eqb_refl, mask_fill_map.
Qed.

Lemma mask_put_map (m : R -> bool) (h g : R -> A) (l : list R) :
  mask_put (map m l) (map h (List.filter m l)) (map g l) =
  map (fun x => if m x then h x else g x) l.
Proof.
  induction l as [|x l IH]; simpl; [done|].
  destruct (m x); simpl; by rewrite IH.
Qed.

Lemma count_true_map (m : R -> bool) (l : list R) :
  count_true (map m l) = length (List.filter m l).
Proof.
  unfold count_true. induction l as [|x l IH]; simpl; [done|].
  destruct (m x); simpl; by rewrite IH.
Qed.

Lemma np_setmask_seq_map (m : R -> bool) (h g : R -> A) (l : list R) :
  np_setmask_seq (map g l) (map m l) (map h (List.filter m l)) =
  Ok (map (fun x => if m x then h x else g x) l).
Proof.
  unfold np_setmask_seq.
  by rewrite !length_map, Nat.eqb_refl, count_true_map, Nat.eqb_refl, mask_put_map.
Qed.

Lemma compress_map (m : R -> bool) (g : R -> A) (l : list R) :
  compress (map m l) (map g l) = Ok (map g (List.filter m l)).
Proof.
  induction l as [|x l IH]; simpl; [done|]. rewrite IH. by destruct (m x).
Qed.

End arrays.

Lemma rows_of_of_rows rows orig : rows_of (of_rows rows orig) = rows.
Proof.
  unfold rows_of, of_rows. simpl. induction rows as [|[[o d] s] rows IH]; simpl; [done|].
  by rewrite IH.
Qed.

Lemma of_rows_rows_of a : sizes_equal a -> of_rows (rows_of a) (orig_time a) = a.
Proof.
  destruct a as [on du de ot]. unfold sizes_equal, rows_of, of_rows. simpl.
  intros [H1 H2]. f_equal.
  - revert du de H1 H2. induction on as [|o on IH]; intros [|d du] [|s de] H1 H2;
      simplify_eq/=; [done|]. f_equal. by apply IH.
  - revert du de H1 H2. induction on as [|o on IH]; intros [|d du] [|s de] H1 H2;
      simplify_eq/=; [done|]. f_equal. by apply IH.
  - revert du de H1 H2. induction on as [|o on IH]; intros [|d du] [|s de] H1 H2;
      simplify_eq/=; [done|]. f_equal. by apply IH.
Qed.


Lemma sizes_equal_of_rows rows orig : sizes_equal (of_rows rows orig).
Proof. unfold sizes_equal, of_rows. simpl. by rewrite !length_map. Qed.

Lemma map_filter_omap {R R' A : Type} (keep : R -> bool) (g : R -> A)
    (f : R -> option R') (p : R' -> A) (rows : list R) :
  (forall r, keep r = false -> f r = None) ->
  (forall r, keep r = true -> exists r', f r = Some r' /\ p r' = g r) ->
  map g (List.filter keep rows) = map p (omap f rows).
Proof.
  intros Hnone Hsome. induction rows as [|r rows IH]; simpl; [done|].
  destruct (keep r) eqn:Hk.
  - destruct (Hsome r Hk) as (r' & Hf & Hp). rewrite Hf. simpl. by rewrite IH, Hp.
  - by rewrite (Hnone r Hk).
Qed.

(** ** crop *)

Lemma crop_run rows orig tmin tmax emit_warning lo hi :
  let a := of_rows rows orig in
  resolved_tmin a tmin = Ok lo ->
  resolved_tmax a tmax = Ok hi ->
  Qc_gtb lo hi = false ->
  Qc_ltb lo 0%Qc = false ->
  exists ws,
    crop tmin tmax emit_warning a =
      (of_rows (omap (crop_row (crop_offset a) lo hi) rows) orig, Ok ws).
Proof.
  intros a Hlo Hhi Hgt Hneg.
  unfold resolved_tmin, resolved_tmax in Hlo, Hhi. subst a.
  rewrite rows_of_of_rows in Hlo, Hhi.
  set (off := crop_offset (of_rows rows orig)) in *.
  unfold crop. unfold mbind, meth_bind, get_self, lift. simpl. fold off.
  rewrite !map_map.
  rewrite np_broadcast2_map.
  rewrite Hlo, Hhi, Hgt, Hneg.
  rewrite !map_map, np_broadcast2_map.
  rewrite !map_map, np_broadcast2_map.
  rewrite np_setmask_map, np_getmask_map. simpl.
  rewrite np_getmask_map, map_map, np_broadcast2_map.
  rewrite np_setmask_seq_map.
  rewrite np_broadcast2_map, np_getmask_map. simpl.
  rewrite np_getmask_map, map_map, np_broadcast2_map.
  rewrite np_setmask_seq_map. simpl.
  rewrite !compress_map. simpl.
  unfold mret, meth_ret. eexists. f_equal.
  unfold of_rows. f_equal.
  - apply map_filter_omap; intros r Hk; unfold crop_row; rewrite Hk; [done|].
    eexists. split; [reflexivity|]. done.
  - apply map_filter_omap; intros r Hk; unfold crop_row; rewrite Hk; [done|].
    eexists. split; [reflexivity|]. done.
  - apply map_filter_omap; intros r Hk; unfold crop_row; rewrite Hk; [done|].
    eexists. split; [reflexivity|]. done.
Qed.

Lemma Qc_ltb_decide (x y : Qc) : bool_decide (x < y)%Qc = Qc_ltb x y.
Proof.
  destruct (Qc_ltb x y) eqn:H.
  - apply bool_decide_eq_true_2. by apply Qc_ltb_lt.
  - apply bool_decide_eq_false_2. apply Qcle_not_lt. by apply Qc_ltb_ge.
Qed.

Lemma crop_row_spec_eq (offset tmin tmax : Qc) (r : row) :
  crop_row offset tmin tmax r = crop_row_spec offset tmin tmax r.
Proof.
  unfold crop_row, crop_row_spec, Qc_gtb.
  rewrite bool_decide_or, !Qc_ltb_decide.
  destruct (Qc_ltb tmax (row_onset r + offset)); [done|].
  destruct (Qc_ltb (row_onset r + offset + row_duration r) tmin); [done|].
  cbn [orb negb andb].
  rewrite !andb_true_r.
  destruct (Qc_ltb (row_onset r + offset) tmin);
    destruct (Qc_ltb tmax (row_onset r + offset + row_duration r));
    apply (f_equal Some), (f_equal2 pair); try reflexivity;
    apply (f_equal2 pair); ring.
Qed.

Lemma omap_pointwise {A B : Type} (f g : A -> option B) (l : list A) :
  (forall x, f x = g x) -> omap f l = omap g l.
Proof. intros H. induction l as [|x l IH]; csimpl; [done|]. by rewrite H, IH. Qed.

Ltac qc_decide := apply (bool_decide_eq_true_1 _); vm_compute; reflexivity.



(** The row across the window is clipped on both sides, the rows outside
    are dropped, and the warnings count two rows omitted and two clips. *)
Example crop_four_rows :
  crop (Some (flt 2)) (Some (flt 5)) true four_rows =
    (mkAnnotations [flt 2; flt 3] [flt 3; flt 1] ["bad"; "inside"] None,
     Ok [Omitted 2; Limited 2]).
Proof. qc_decide. Qed.

Lemma crop_of_rows rows orig tmin tmax emit_warning :
  let a := of_rows rows orig in
  match resolved_tmin a tmin, resolved_tmax a tmax with
  | Err e, _ => crop tmin tmax emit_warning a = (a, Err e)
  | Ok _, Err e => crop tmin tmax emit_warning a = (a, Err e)
  | Ok lo, Ok hi =>
      if Qc_gtb lo hi
      then crop tmin tmax emit_warning a = (a, Err (ValueError TmaxLessThanTmin))
      else if Qc_ltb lo 0%Qc
      then crop tmin tmax emit_warning a = (a, Err (ValueError TminNegative))
      else exists ws,
          crop tmin tmax emit_warning a =
            (of_rows (omap (crop_row (crop_offset a) lo hi) rows) orig, Ok ws)
  end.
Proof.
  intros a.
  destruct (resolved_tmin a tmin) as [lo|e] eqn:Hlo.
  - destruct (resolved_tmax a tmax) as [hi|e] eqn:Hhi.
    + destruct (Qc_gtb lo hi) eqn:Hgt; [|destruct (Qc_ltb lo 0%Qc) eqn:Hneg].
      3: by apply crop_run.
      all: unfold resolved_tmin, resolved_tmax in Hlo, Hhi; subst a;
        rewrite rows_of_of_rows in Hlo, Hhi;
        unfold crop, mbind, meth_bind, get_self, lift; simpl;
        rewrite !map_map, np_broadcast2_map, Hlo, Hhi, Hgt; try rewrite Hneg; done.
    + unfold resolved_tmin, resolved_tmax in Hlo, Hhi; subst a;
        rewrite rows_of_of_rows in Hlo, Hhi;
        unfold crop, mbind, meth_bind, get_self, lift; simpl;
        rewrite !map_map, np_broadcast2_map, Hlo, Hhi; done.
  - unfold resolved_tmin, resolved_tmax in Hlo; subst a;
        rewrite rows_of_of_rows in Hlo;
        unfold crop, mbind, meth_bind, get_self, lift; simpl;
        rewrite !map_map, np_broadcast2_map, Hlo; done.
Qed.

Lemma crop_cases (a : Annotations) (tmin tmax : option Qc) (emit_warning : bool) :
  sizes_equal a ->
  match resolved_tmin a tmin, resolved_tmax a tmax with
  | Err e, _ => crop tmin tmax emit_warning a = (a, Err e)
  | Ok _, Err e => crop tmin tmax emit_warning a = (a, Err e)
  | Ok lo, Ok hi =>
      if Qc_gtb lo hi
      then crop tmin tmax emit_warning a = (a, Err (ValueError TmaxLessThanTmin))
      else if Qc_ltb lo 0%Qc
      then crop tmin tmax emit_warning a = (a, Err (ValueError TminNegative))
      else exists ws,
          crop tmin tmax emit_warning a =
            (of_rows (omap (crop_row (crop_offset a) lo hi) (rows_of a)) (orig_time a),
             Ok ws)
  end.
Proof.
  intros Hsz.
  pose proof (crop_of_rows (rows_of a) (orig_time a) tmin tmax emit_warning) as H.
  cbv zeta in H. by rewrite (of_rows_rows_of a Hsz) in H.
Qed.

(** C8. Whenever the resolved [tmin] is greater than the resolved [tmax],
    or negative, [crop] raises a [ValueError] ('tmax should be greater
    than tmin.' or 'tmin should be positive.') and the set is left as it
    was: onset, duration, description and origin are unchanged. *)
Theorem crop_bad_bounds_unchanged (a : Annotations) (tmin tmax : option Qc)
    (emit_warning : bool) (lo hi : Qc) :
  sizes_equal a ->
  resolved_tmin a tmin = Ok lo ->
  resolved_tmax a tmax = Ok hi ->
  (hi < lo)%Qc \/ (lo < 0)%Qc ->
  exists e, crop tmin tmax emit_warning a = (a, Err (ValueError e)) /\
            (e = TmaxLessThanTmin \/ e = TminNegative).
Proof.
  intros Hsz Hlo Hhi Hbad.
  pose proof (crop_cases a tmin tmax emit_warning Hsz) as H.
  rewrite Hlo, Hhi in H.
  destruct (Qc_gtb lo hi) eqn:Hgt; [eauto|].
  destruct (Qc_ltb lo 0%Qc) eqn:Hneg; [eauto|].
  exfalso. destruct Hbad as [Hb|Hb].
  - apply Qc_ltb_lt in Hb. unfold Qc_gtb in Hgt. congruence.
  - apply Qc_ltb_lt in Hb. congruence.
Qed.

Lemma crop_bad_bounds_unchanged_witness :
  exists e,
    crop (Some (flt 5)) (Some (flt 2)) false ten_seconds = (ten_seconds, Err (ValueError e)) /\
    (e = TmaxLessThanTmin \/ e = TminNegative).
Proof.
  apply (crop_bad_bounds_unchanged ten_seconds (Some (flt 5)) (Some (flt 2)) false
           (flt 5) (flt 2) (conj eq_refl eq_refl) eq_refl eq_refl).
  left. by apply Qc_ltb_lt.
Defined.

(** C10. With both bounds omitted, [crop] on a set without rows fails
    (numpy's error for the minimum of an empty array) instead of doing
    nothing, and the set is unchanged; on a set with rows it never fails
    with that error: the default bounds need at least one row. *)
Theorem crop_default_bounds_need_rows (a : Annotations) (emit_warning : bool) :
  sizes_equal a ->
  (onset a = [] ->
     crop None None emit_warning a = (a, Err (ValueError NpZeroSizeReduction))) /\
  (crop None None emit_warning a = (a, Err (ValueError NpZeroSizeReduction)) ->
     onset a = []).
Proof.
  intros Hsz.
  pose proof (crop_cases a None None emit_warning Hsz) as H.
  unfold resolved_tmin, resolved_tmax in H.
  assert (Hrows : onset a = map row_onset (rows_of a)).
  { rewrite <- (of_rows_rows_of a Hsz) at 1. done. }
  split.
  - intros Hon. rewrite Hon in Hrows. destruct (rows_of a) eqn:Hr; [|done].
    simpl in H. done.
  - intros Hcrop. destruct (rows_of a) as [|r rows] eqn:Hr; [by rewrite Hrows|].
    exfalso. simpl in H.
    destruct (Qc_gtb _ _); [rewrite H in Hcrop; done|].
    destruct (Qc_ltb _ _); [rewrite H in Hcrop; done|].
    destruct H as [ws H]. rewrite H in Hcrop. done.
Qed.

Lemma crop_default_bounds_need_rows_witness :
  crop None None false empty_annotations =
    (empty_annotations, Err (ValueError NpZeroSizeReduction)).
Proof.
  apply (proj1 (crop_default_bounds_need_rows empty_annotations false
                  (conj eq_refl eq_refl)) eq_refl).
Defined.

(** ** Concatenation with [+=] and [+] *)

Lemma orig_time_neq_spec (a b : option Qc) : orig_time_neq a b = true <-> a <> b.
Proof.
  destruct a as [x|], b as [y|]; simpl.
  - rewrite negb_true_iff, Qc_eqb_neq. split; congruence.
  - split; [done|]. intros _. reflexivity.
  - split; [done|]. intros _. reflexivity.
  - split; [done|]. intros H. by destruct H.
Qed.

Lemma orig_time_neq_false (a b : option Qc) : orig_time_neq a b = false <-> a = b.
Proof.
  rewrite <- not_true_iff_false, orig_time_neq_spec.
  destruct (decide (a = b)); tauto.
Qed.

(** The structural append of two sets, with the origin of the second. *)
Lemma iadd_run (self other : Annotations) :
  __iadd__ other self =
    if bool_decide (orig_time self <> orig_time other /\ len self <> 0)
    then (self, Err (ValueError OrigTimeMismatch))
    else (mkAnnotations (onset self ++ onset other) (duration self ++ duration other)
            (description self ++ description other) (orig_time other), Ok tt).
Proof.
  unfold __iadd__, mbind, meth_bind, get_self. 
  destruct (Nat.eqb_spec (len self) 0) as [Hlen|Hlen].
  - rewrite bool_decide_eq_false_2 by tauto.
    simpl. replace (orig_time_neq (orig_time other) (orig_time other)) with false
      by (symmetry; by apply orig_time_neq_false).
    reflexivity.
  - simpl. destruct (orig_time_neq (orig_time self) (orig_time other)) eqn:Hneq.
    + apply orig_time_neq_spec in Hneq. by rewrite bool_decide_eq_true_2.
    + apply orig_time_neq_false in Hneq. rewrite bool_decide_eq_false_2 by tauto.
      unfold append, mbind, meth_bind, get_self, set_onset, set_duration, set_description.
      simpl. destruct self; simpl in *. by rewrite Hneq.
Qed.

(** C6. [+=] and [+] fail, with the [ValueError] about [orig_time], if
    and only if the origins differ and the left-hand set is not empty;
    [+=] then leaves the left-hand set unchanged.  Otherwise they succeed
    (an empty left-hand set adopts the origin of the right-hand one) and
    the result is the structural append of the onsets, durations and
    descriptions, with no shift. *)
Theorem concatenate_fails_iff (self other : Annotations) :
  let mismatch := orig_time self <> orig_time other /\ len self <> 0 in
  let appended :=
    mkAnnotations (onset self ++ onset other) (duration self ++ duration other)
      (description self ++ description other) (orig_time other) in
  ((exists s e, __iadd__ other self = (s, Err e)) <-> mismatch) /\
  (mismatch -> __iadd__ other self = (self, Err (ValueError OrigTimeMismatch))) /\
  (~ mismatch -> __iadd__ other self = (appended, Ok tt)) /\
  ((exists e, __add__ self other = Err e) <-> mismatch) /\
  (mismatch -> __add__ self other = Err (ValueError OrigTimeMismatch)) /\
  (~ mismatch -> __add__ self other = Ok appended).
Proof.
  intros mismatch appended.
  assert (Hadd : __add__ self other =
                 if bool_decide mismatch then Err (ValueError OrigTimeMismatch)
                 else Ok appended).
  { unfold __add__, copy. rewrite iadd_run. fold mismatch. by destruct (bool_decide _). }
  pose proof (iadd_run self other) as Hi. fold mismatch appended in Hi.
  rewrite Hi, Hadd. destruct (decide mismatch) as [Hm|Hm].
  - rewrite !bool_decide_eq_true_2 by done.
    split; [split; eauto|]. split; [done|]. split; [done|].
    split; [split; eauto|]. split; done.
  - rewrite !bool_decide_eq_false_2 by done.
    split; [split; [by intros (s & e & ?)|done]|]. split; [done|]. split; [done|].
    split; [split; [by intros (e & ?)|done]|]. split; done.
Qed.

(** ** Marker windows *)

Lemma omap_seq_S {A : Type} (f : nat -> option A) (j n : nat) :
  omap f (seq (S j) n) = omap (fun i => f (S i)) (seq j n).
Proof.
  revert j. induction n as [|n IH]; intros j; [done|].
  cbn [seq]. csimpl. by rewrite IH.
Qed.

Lemma consecutive_pairs_cons (e e' o o' : Z) (E O : list Z) :
  consecutive_pairs (e :: e' :: E) (o :: o' :: O) =
  (e, o') :: consecutive_pairs (e' :: E) (o' :: O).
Proof.
  unfold consecutive_pairs. cbn [length]. rewrite !Nat.sub_succ, Nat.sub_0_r.
  cbn [seq]. csimpl. f_equal. rewrite omap_seq_S, ?Nat.sub_0_r. reflexivity.
Qed.

Lemma zip_removelast_tail (E O : list Z) :
  length E = length O ->
  zip (removelast E) (tail O) = consecutive_pairs E O /\
  length (removelast E) = length (tail O).
Proof.
  revert O. induction E as [|e E IH]; intros [|o O] Hlen; simplify_eq/=; [done|].
  destruct E as [|e' E], O as [|o' O]; simplify_eq/=; [done|].
  destruct (IH (o' :: O)) as [IH1 IH2]; [simpl; congruence|].
  rewrite consecutive_pairs_cons. simpl in IH1, IH2. split; congruence.
Qed.

Lemma last_cons_cons {A : Type} (x y : A) (l : list A) : last (x :: y :: l) = last (y :: l).
Proof. done. Qed.

Lemma matched_of_not_inverted raw kinds on en :
  _annotations_starts_stops raw kinds false = Ok (on, en) ->
  forall invert,
  _annotations_starts_stops raw kinds invert =
    if invert then
      let n := Z.of_nat (n_times raw) in
      let '(onsets, ends) :=
        if match on with [] => true | x :: _ => negb (x =? 0)%Z end
        then (0%Z :: on, 0%Z :: en) else (on, en) in
      extend ← (if (length ends =? 1)%nat then Ok true
                else x ← last_item ends; Ok (negb (x =? n)%Z));
      let '(onsets, ends) :=
        if extend : bool then (onsets ++ [n], ends ++ [n]) else (onsets, ends) in
      Ok (removelast ends, tail onsets)
    else Ok (on, en).
Proof.
  unfold _annotations_starts_stops.
  match goal with |- mbind _ ?x = _ -> _ => destruct x as [[on' en']|e] end;
    cbn [mbind result_bind]; [|done].
  intros [= -> ->] [|]; reflexivity.
Qed.

Lemma trailing_decision (n : Z) (on en : list Z) :
  length on = length en ->
  let ends1 := if leading_boundary on then 0%Z :: en else en in
  (if (length ends1 =? 1)%nat then Ok true
   else x ← last_item ends1; Ok (negb (x =? n)%Z)) =
  Ok (trailing_boundary n en || single_match_at_start on).
Proof.
  intros Hlen. destruct on as [|x [|x' on]], en as [|y [|y' en]]; simplify_eq/=.
  - done.
  - unfold leading_boundary, trailing_boundary. simpl.
    destruct (x =? 0)%Z; simpl; [by rewrite orb_true_r|by rewrite orb_false_r].
  - unfold leading_boundary, trailing_boundary, last_item.
    cbn [head single_match_at_start]. rewrite orb_false_r.
    destruct (negb (x =? 0)%Z); cbn [length Nat.eqb]; rewrite !last_cons_cons;
      (destruct (last (y' :: en)) eqn:Hl; [done|by apply last_None in Hl]).
Qed.

(** C3 (amended). Inverted extraction returns the complement of the
    matched, sorted intervals over [0, n]: a leading zero-length boundary
    is inserted iff there is no match or the first match does not start
    at index 0; a trailing one iff there is no match, or the last match
    does not reach [n], or the only match starts at index 0; the result is
    the consecutive [(end[i], onset[i+1])] pairs.  In particular one match
    spanning [2, 5] on a 10-sample axis gives [(0,2), (5,10)]. *)
Theorem inverted_windows_complement (raw : Raw) (kinds : list string) (on en : list Z) :
  _annotations_starts_stops raw kinds false = Ok (on, en) ->
  length on = length en ->
  let n := Z.of_nat (n_times raw) in
  let leading := leading_boundary on in
  let trailing := trailing_boundary n en || single_match_at_start on in
  (exists os es,
     _annotations_starts_stops raw kinds true = Ok (os, es) /\
     length os = length es /\
     intervals (os, es) = complement_with leading trailing n on en) /\
  (on = [2%Z] -> en = [5%Z] -> n = 10%Z ->
     _annotations_starts_stops raw kinds true = Ok ([0%Z; 5%Z], [2%Z; 10%Z])).
Proof.
  intros Hm Hlen n leading trailing.
  rewrite (matched_of_not_inverted raw kinds on en Hm true). cbv zeta. fold n.
  split.
  - pose proof (trailing_decision n on en Hlen) as Ht. cbv zeta in Ht.
    fold trailing in Ht.
    replace (match on with [] => true | x :: _ => negb (x =? 0)%Z end)
      with (leading_boundary on) by (by destruct on).
    fold leading in Ht |- *.
    unfold complement_with.
    destruct leading; rewrite Ht; cbn [mbind result_bind];
      destruct trailing.
    + destruct (zip_removelast_tail ((0%Z :: en) ++ [n]) ((0%Z :: on) ++ [n])) as [H1 H2].
      { rewrite !length_app. simpl. congruence. }
      eexists _, _. split; [reflexivity|]. split; [done|]. exact H1.
    + destruct (zip_removelast_tail (0%Z :: en) (0%Z :: on)) as [H1 H2].
      { simpl. congruence. }
      eexists _, _. split; [reflexivity|]. split; [done|].
      unfold intervals. cbn [fst snd]. rewrite H1. by rewrite !app_nil_r.
    + destruct (zip_removelast_tail (en ++ [n]) (on ++ [n])) as [H1 H2].
      { rewrite !length_app. simpl. congruence. }
      eexists _, _. split; [reflexivity|]. split; [done|]. exact H1.
    + destruct (zip_removelast_tail en on) as [H1 H2]; [done|].
      eexists _, _. split; [reflexivity|]. split; [done|].
      unfold intervals. cbn [fst snd]. rewrite H1. by rewrite !app_nil_r.
  - intros -> -> Hn. rewrite Hn. reflexivity.
Qed.

(** With the trailing rule as first stated C3 fails: one match covering
    all ten samples starts at index 0 and reaches the end, so that no
    boundary would be inserted and the result would be empty; the code
    inserts the trailing boundary and returns the interval (10, 10). *)
Lemma inverted_as_stated_fails : ~ inverted_as_stated raw_all_bad ["bad"].
Proof.
  intros H. destruct (H [0%Z] [10%Z]) as (os & es & Hrun & Hint).
  - vm_compute. reflexivity.
  - assert (Hcode : _annotations_starts_stops raw_all_bad ["bad"] true =
                    Ok ([10%Z], [10%Z])) by (vm_compute; reflexivity).
    rewrite Hcode in Hrun. injection Hrun as <- <-. vm_compute in Hint. discriminate.
Qed.

Lemma inverted_windows_complement_witness :
  exists os es,
    _annotations_starts_stops raw_all_bad ["bad"] true = Ok (os, es) /\
    length os = length es /\
    intervals (os, es) = [(10%Z, 10%Z)].
Proof.
  apply (proj1 (inverted_windows_complement raw_all_bad ["bad"] [0%Z] [10%Z]
                  ltac:(vm_compute; reflexivity) eq_refl)).
Defined.

(** ** The cross-recording merge *)

Lemma py_div_ok (x y : Qc) : y <> 0%Qc -> py_div x y = Ok (x / y)%Qc.
Proof. intros H. unfold py_div. by rewrite (proj2 (Qc_eqb_neq y 0%Qc) H). Qed.

Lemma init_orig_time_as_arg (t : option Qc) : init_orig_time (orig_time_as_arg t) = Ok t.
Proof. by destruct t. Qed.

Lemma init_valid (on du : list Qc) (de : list string) (t : option Qc) :
  valid (mkAnnotations on du de t) ->
  __init__ (Nd1 on) (Nd1 du) (DescSeq de) (orig_time_as_arg t) =
    Ok (mkAnnotations on du de t).
Proof.
  intros [[H1 H2] Hsemi]. simpl in *.
  rewrite (init_1d _ _ _ _ t (init_orig_time_as_arg t)). cbv zeta. simpl.
  rewrite H1, H2, !Nat.eqb_refl. simpl.
  destruct (existsb (contains_char semicolon) de) eqn:Hex; [|done].
  apply existsb_semicolon, Exists_exists in Hex as (d & Hd & Hc).
  rewrite Forall_forall in Hsemi. specialize (Hsemi d Hd). congruence.
Qed.

Lemma valid_merged (a b : Annotations) (shift : Qc) :
  valid a -> valid b -> valid (merged a b shift).
Proof.
  intros [[Ha1 Ha2] Ha3] [[Hb1 Hb2] Hb3]. split; [split|]; simpl.
  - rewrite !length_app, length_map. congruence.
  - rewrite !length_app. congruence.
  - by apply Forall_app.
Qed.

Lemma valid_empty : valid empty_annotations.
Proof. split; [split|]; simpl; done. Qed.

Lemma combine_run (a b : Annotations) (one : option Annotations)
    (one_n_samples one_first_samp two_first_samp : Z) (sfreq : Qc)
    (meas_date : meas_date_t) (m : Qc) :
  a = default empty_annotations one ->
  sfreq <> 0%Qc ->
  _handle_meas_date meas_date = Ok m ->
  valid a -> valid b ->
  _combine_annotations one (Some b) one_n_samples one_first_samp two_first_samp
                       sfreq meas_date =
    Ok (Some (merged a b
                (shift_spec a b one_n_samples one_first_samp two_first_samp sfreq m))).
Proof.
  intros Ha Hsf Hm Hva Hvb.
  assert (Hone : match one with
                 | None => __init__ (Nd1 []) (Nd1 []) (DescSeq []) OrigNone
                 | Some one => Ok one
                 end = Ok a).
  { subst a. by destruct one. }
  assert (Hrun : _combine_annotations one (Some b) one_n_samples one_first_samp
                   two_first_samp sfreq meas_date =
    (one ← Ok a;
     shift ← Ok (of_int one_n_samples / sfreq)%Qc;
     meas_date ← Ok m;
     shift ← match orig_time one with
             | Some t => Ok ((shift + of_int one_first_samp / sfreq) + (meas_date - t))%Qc
             | None => Ok shift
             end;
     shift ← match orig_time b with
             | Some t => Ok ((shift - of_int two_first_samp / sfreq) - (meas_date - t))%Qc
             | None => Ok shift
             end;
     a ← __init__ (Nd1 (onset one ++ map (fun x => (x + shift)%Qc) (onset b)))
                  (Nd1 (duration one ++ duration b))
                  (DescSeq (description one ++ description b))
                  (orig_time_as_arg (orig_time one));
     Ok (Some a))).
  { unfold _combine_annotations. rewrite Hm, !(py_div_ok _ sfreq Hsf).
    subst a. destruct one as [a|]; cbn [mbind result_bind default]; [|simpl];
      by destruct (orig_time _), (orig_time b). }
  rewrite Hrun. cbn [mbind result_bind].
  set (s := shift_spec a b one_n_samples one_first_samp two_first_samp sfreq m).
  assert (Hs : forall s', s' = s ->
    __init__ (Nd1 (onset a ++ map (fun x => (x + s')%Qc) (onset b)))
             (Nd1 (duration a ++ duration b))
             (DescSeq (description a ++ description b))
             (orig_time_as_arg (orig_time a)) ≫= (fun a0 => Ok (Some a0)) =
    Ok (Some (merged a b s))).
  { intros s' ->.
    pose proof (init_valid (onset a ++ map (fun x => (x + s)%Qc) (onset b))
                  (duration a ++ duration b) (description a ++ description b)
                  (orig_time a) (valid_merged a b s Hva Hvb)) as Hi.
    rewrite Hi. reflexivity. }
  unfold shift_spec in s.
  destruct (orig_time a) as [ta|], (orig_time b) as [tb|]; cbn [mbind result_bind];
    apply Hs; subst s; ring.
Qed.

(** C1 (amended). If both sets are absent the result is [None]; if the
    second is absent the result is the first, verbatim; otherwise an
    absent first set is replaced by the empty set without origin and the
    result has onsets [A.onset ++ (B.onset + shift)], where [shift] is
    [A_n_samples / sfreq], plus [A_first_samp / sfreq + normalize(M) -
    A.origin] when [A] has an origin, minus [B_first_samp / sfreq +
    normalize(M) - B.origin] when [B] has one; durations and descriptions
    are concatenated unchanged and the origin is that of [A].  In
    particular, for [A] with onset [1.0] (1000 samples at 100 Hz) and [B]
    with onset [0.5], both without origin, the merged onset is
    [1.0, 10.5]. *)
Theorem combine_annotations_merge (one two : option Annotations)
    (one_n_samples one_first_samp two_first_samp : Z) (sfreq : Qc)
    (meas_date : meas_date_t) (m : Qc) :
  sfreq <> 0%Qc ->
  _handle_meas_date meas_date = Ok m ->
  (forall a, one = Some a -> valid a) ->
  (forall b, two = Some b -> valid b) ->
  _combine_annotations one two one_n_samples one_first_samp two_first_samp
                       sfreq meas_date =
    Ok (match one, two with
        | None, None => None
        | Some a, None => Some a
        | None, Some b =>
            Some (merged empty_annotations b
                    (shift_spec empty_annotations b one_n_samples one_first_samp
                                two_first_samp sfreq m))
        | Some a, Some b =>
            Some (merged a b (shift_spec a b one_n_samples one_first_samp
                                         two_first_samp sfreq m))
        end) /\
  (forall da db sa sb,
     contains_char semicolon sa = false ->
     contains_char semicolon sb = false ->
     exists r,
       _combine_annotations (Some (mkAnnotations [flt 1] [da] [sa] None))
                            (Some (mkAnnotations [flt 0.5] [db] [sb] None))
                            1000 0 0 (flt 100) meas_date = Ok (Some r) /\
       onset r = [flt 1; flt 10.5]).
Proof.
  intros Hsf Hm Hone Htwo. split.
  - destruct two as [b|].
    + destruct one as [a|].
      * apply combine_run; auto.
      * apply combine_run; auto using valid_empty.
    + by destruct one.
  - intros da db sa sb Hsa Hsb. eexists. split.
    + apply (combine_run (mkAnnotations [flt 1] [da] [sa] None) _ (Some _) _ _ _ _ _ m);
        try done; (split; [split; reflexivity|]); simpl; auto.
    + simpl. do 2 f_equal. qc_decide.
Qed.

Lemma valid_half_second : valid half_second.
Proof. split; [split; reflexivity|]. repeat constructor. Qed.

(** As first stated C1 fails: with the first set absent, the second is
    not returned verbatim; its onset 0.5 comes back as 10.5. *)
Lemma merge_as_stated_fails :
  ~ merge_as_stated None (Some half_second) 1000 0 0 (flt 100) MeasNone.
Proof.
  intros H. specialize (H 0%Qc eq_refl).
  rewrite (combine_run empty_annotations half_second None 1000 0 0 (flt 100) MeasNone 0%Qc
             eq_refl ltac:(by apply Qc_eqb_neq) eq_refl valid_empty valid_half_second) in H.
  apply (f_equal (fun r => match r with
                          | Ok (Some x) => bool_decide (onset x = [flt 0.5])
                          | _ => true
                          end)) in H.
  vm_compute in H. discriminate.
Qed.

Lemma combine_annotations_merge_witness :
  _combine_annotations None (Some half_second) 1000 0 0 (flt 100) MeasNone =
    Ok (Some (merged empty_annotations half_second
                (shift_spec empty_annotations half_second 1000 0 0 (flt 100) 0%Qc))).
Proof.
  apply (proj1 (combine_annotations_merge None (Some half_second) 1000 0 0 (flt 100)
                  MeasNone 0%Qc ltac:(by apply Qc_eqb_neq) eq_refl ltac:(done)
                  ltac:(intros b [= <-]; apply valid_half_second))).
Defined.

(** Both origins set: 1000 samples at 100 Hz, first samples 50 and 200,
    recording start 90.5 s, origins 100 s and 120 s; the shift is
    10 + (0.5 + 90.5 - 100) - (2 + 90.5 - 120) = 28.5 s. *)
Example merge_both_origins :
  _combine_annotations (Some (with_origin 100)) (Some (with_origin 120))
                       1000 50 200 (flt 100) (MeasSeq [flt 90; flt 500000]) =
    Ok (Some (mkAnnotations [flt 1; flt 29.5] [flt 1; flt 1] ["x"; "x"]
                            (Some (flt 100)))).
Proof. qc_decide. Qed.

(** ** The invariant *)

Lemma length_remove_positions {A B : Type} (ks : list nat) (xs : list A) (ys : list B) pos :
  length xs = length ys ->
  length (remove_positions pos ks xs) = length (remove_positions pos ks ys).
Proof.
  revert ys pos. induction xs as [|x xs IH]; intros [|y ys] pos H; simplify_eq/=; [done|].
  destruct (bool_decide (pos ∈ ks)); simpl; auto.
Qed.

Lemma delete_cases (a : Annotations) (idx : scalar_or_seq Z) :
  sizes_equal a ->
  (exists a', delete idx a = (a', Ok tt) /\ sizes_equal a') \/
  (exists e, delete idx a = (a, Err e)).
Proof.
  intros [H1 H2]. unfold delete, mbind, meth_bind, get_self, lift, np_delete.
  simpl. rewrite <- H2, <- H1.
  destruct (norm_indices (length (onset a)) (ravel idx)) as [ks|e]; [|eauto].
  left. simpl. eexists. split; [reflexivity|].
  split; simpl; by apply length_remove_positions.
Qed.

Lemma append_sizes (a : Annotations) (new_onset new_duration : scalar_or_seq Qc)
    (new_description : scalar_or_seq string) :
  sizes_equal a ->
  length (ravel new_onset) = length (ravel new_duration) ->
  length (ravel new_duration) = length (ravel new_description) ->
  exists a', append new_onset new_duration new_description a = (a', Ok tt) /\
             sizes_equal a'.
Proof.
  intros [H1 H2] H3 H4. eexists. split; [reflexivity|].
  split; simpl; unfold np_append; rewrite !length_app; congruence.
Qed.

Lemma init_sizes onset duration description orig_time r :
  __init__ onset duration description orig_time = Ok r -> sizes_equal r.
Proof.
  unfold __init__. destruct (init_orig_time orig_time) as [t|]; [|done].
  cbn [mbind result_bind].
  destruct onset as [|on|]; try done. destruct duration as [|du|]; try done.
  destruct (Nat.eqb_spec (length on) (length du)) as [H1|]; [|done].
  match goal with |- context [(length du =? ?n)%nat] =>
    destruct (Nat.eqb_spec (length du) n) as [H2|]; [|done] end.
  cbn [andb negb]. destruct (existsb _ _); [done|].
  intros [= <-]. split; done.
Qed.

Lemma bind_ok_inv {A B : Type} (x : result A) (k : A -> result B) (y : B) :
  x ≫= k = Ok y -> exists a, x = Ok a /\ k a = Ok y.
Proof. destruct x as [a|e]; [|done]. intros H. by exists a. Qed.

Lemma combine_sizes one two n1 fs1 fs2 sfreq meas_date r :
  (forall a, one = Some a -> sizes_equal a) ->
  _combine_annotations one two n1 fs1 fs2 sfreq meas_date = Ok (Some r) ->
  sizes_equal r.
Proof.
  intros Hone. unfold _combine_annotations.
  destruct two as [b|].
  - intros H.
    assert (H' : exists on du de ot a0,
               __init__ on du de ot = Ok a0 /\ Ok (Some a0) = Ok (Some r)).
    { destruct one;
        repeat (apply bind_ok_inv in H as (? & ? & H)); eauto 10. }
    destruct H' as (on & du & de & ot & a0 & Hinit & [= ->]).
    by apply init_sizes in Hinit.
  - destruct one as [a|]; intros [= <-]. by apply Hone.
Qed.

(** [append] does not compare the sizes of its arguments: a batch of two
    onsets with one duration and one description succeeds and leaves
    sequences of lengths 2, 1 and 1. *)
Lemma append_breaks_sizes :
  sizes_equal empty_annotations /\
  exists a',
    append (Many [flt 1; flt 2]) (One (flt 1)) (One "bad") empty_annotations = (a', Ok tt) /\
    ~ sizes_equal a'.
Proof.
  split; [by split|]. eexists. split; [reflexivity|].
  intros [H _]. simpl in H. discriminate.
Qed.

(** C4 (amended). On a set with the invariant, [append] of equally many
    onsets, durations and descriptions (in particular of one row)
    succeeds and restores the invariant; [delete], [crop] and [+=] either
    succeed and restore it or fail and leave the set as it was; [+], the
    cross-recording merge and the constructor only return sets with the
    invariant. *)
Theorem sizes_equal_preserved (a : Annotations) :
  sizes_equal a ->
  (forall new_onset new_duration new_description,
     length (ravel new_onset) = length (ravel new_duration) ->
     length (ravel new_duration) = length (ravel new_description) ->
     exists a', append new_onset new_duration new_description a = (a', Ok tt) /\
                sizes_equal a') /\
  (forall idx,
     (exists a', delete idx a = (a', Ok tt) /\ sizes_equal a') \/
     (exists e, delete idx a = (a, Err e))) /\
  (forall tmin tmax emit_warning,
     (exists a' ws, crop tmin tmax emit_warning a = (a', Ok ws) /\ sizes_equal a') \/
     (exists e, crop tmin tmax emit_warning a = (a, Err e))) /\
  (forall other, sizes_equal other ->
     (exists a', __iadd__ other a = (a', Ok tt) /\ sizes_equal a') \/
     (exists e, __iadd__ other a = (a, Err e))) /\
  (forall other r, sizes_equal other -> __add__ a other = Ok r -> sizes_equal r) /\
  (forall two n1 fs1 fs2 sfreq meas_date r,
     _combine_annotations (Some a) two n1 fs1 fs2 sfreq meas_date = Ok (Some r) ->
     sizes_equal r) /\
  (forall onset duration description orig_time r,
     __init__ onset duration description orig_time = Ok r -> sizes_equal r).
Proof.
  intros Hsz. split; [|split; [|split; [|split; [|split; [|split]]]]].
  - intros. by apply append_sizes.
  - intros. by apply delete_cases.
  - intros tmin tmax emit_warning.
    pose proof (crop_cases a tmin tmax emit_warning Hsz) as H.
    destruct (resolved_tmin a tmin) as [lo|e]; [|eauto].
    destruct (resolved_tmax a tmax) as [hi|e]; [|eauto].
    destruct (Qc_gtb lo hi); [eauto|]. destruct (Qc_ltb lo 0%Qc); [eauto|].
    destruct H as [ws H]. left. eexists _, ws. split; [exact H|].
    apply sizes_equal_of_rows.
  - intros other [Ho1 Ho2]. rewrite iadd_run. destruct (bool_decide _); [eauto|].
    left. eexists. split; [reflexivity|]. destruct Hsz as [H1 H2].
    split; simpl; rewrite !length_app; congruence.
  - intros other r [Ho1 Ho2]. unfold __add__, copy. rewrite iadd_run.
    destruct (bool_decide _); [done|]. intros [= <-]. destruct Hsz as [H1 H2].
    split; simpl; rewrite !length_app; congruence.
  - intros two n1 fs1 fs2 sfreq meas_date r. apply combine_sizes. by intros ? [= <-].
  - intros onset duration description orig_time r. apply init_sizes.
Qed.

Lemma sizes_equal_preserved_witness :
  exists a', delete (One 0%Z) (mkAnnotations [flt 1] [flt 2] ["bad"] None) = (a', Ok tt) /\
             sizes_equal a'.
Proof.
  destruct (proj1 (proj2 (sizes_equal_preserved
                            (mkAnnotations [flt 1] [flt 2] ["bad"] None)
                            (conj eq_refl eq_refl))) (One 0%Z)) as [H|[e H]].
  - exact H.
  - discriminate H.
Defined.

(** ** Events from annotations *)

(** The pattern acts as a filter placed before the resolution of the
    codes: descriptions that do not match never reach the code map. *)
Lemma resolve_step_unmatched {S : Type} (p : string -> bool) (event_id : resolver S)
    (acc : gmap string Z * list string * S) (desc : string) :
  p desc = false -> resolve_step p event_id acc desc = acc.
Proof.
  intros Hp. unfold resolve_step. destruct acc as [[m dr] st]. rewrite Hp. simpl.
  by destruct (bool_decide _).
Qed.

Lemma resolve_step_matched {S : Type} (p : string -> bool) (event_id : resolver S)
    (acc : gmap string Z * list string * S) (desc : string) :
  p desc = true ->
  resolve_step p event_id acc desc = resolve_step (fun _ => true) event_id acc desc.
Proof.
  intros Hp. unfold resolve_step. destruct acc as [[m dr] st]. by rewrite Hp.
Qed.

Lemma resolve_loop_prefilter {S : Type} (p : string -> bool) (event_id : resolver S)
    (st : S) (descs : list string) :
  resolve_loop p event_id st descs =
  resolve_loop (fun _ => true) event_id st (List.filter p descs).
Proof.
  unfold resolve_loop. generalize (∅ : gmap string Z, @nil string, st).
  induction descs as [|desc descs IH]; intros acc; [done|].
  simpl. destruct (p desc) eqn:Hp.
  - simpl. rewrite <- (resolve_step_matched p) by done. apply IH.
  - rewrite resolve_step_unmatched by done. apply IH.
Qed.

(** Every key of the resolved map is a description that matches the
    pattern. *)
Lemma resolve_step_keys {S : Type} (p : string -> bool) (event_id : resolver S)
    (acc : gmap string Z * list string * S) (desc k : string) :
  is_Some ((resolve_step p event_id acc desc).1.1 !! k) ->
  is_Some (acc.1.1 !! k) \/ (k = desc /\ p desc = true).
Proof.
  unfold resolve_step. destruct acc as [[m dr] st]. simpl.
  destruct (bool_decide _); [by left|].
  destruct (p desc) eqn:Hp; simpl; [|by left].
  destruct event_id as [d|call].
  - destruct (d !! desc); simpl; [|by left].
    destruct (decide (k = desc)) as [->|Hne]; [by right|].
    rewrite lookup_insert_ne by done. by left.
  - destruct (call st desc) as [[v|] st']; simpl; [|by left].
    destruct (decide (k = desc)) as [->|Hne]; [by right|].
    rewrite lookup_insert_ne by done. by left.
Qed.

Lemma resolve_loop_keys {S : Type} (p : string -> bool) (event_id : resolver S)
    (st : S) (descs : list string) (k : string) :
  is_Some ((resolve_loop p event_id st descs).1.1 !! k) -> k ∈ descs /\ p k = true.
Proof.
  unfold resolve_loop.
  assert (H : forall acc,
    is_Some ((foldl (resolve_step p event_id) acc descs).1.1 !! k) ->
    is_Some (acc.1.1 !! k) \/ (k ∈ descs /\ p k = true)).
  { induction descs as [|desc descs IH]; intros acc Hk; [by left|].
    simpl in Hk. apply IH in Hk as [Hk|[Hin Hp]].
    - apply resolve_step_keys in Hk as [Hk|[-> Hp]]; [by left|].
      right. split; [left|done].
    - right. split; [by right|done]. }
  intros Hk. apply H in Hk as [Hk|Hk]; [|done].
  simpl in Hk. rewrite lookup_empty in Hk. by destruct Hk.
Qed.

(** With a mapping, the resolved map holds the codes of the descriptions
    that match the pattern and are keys of the mapping. *)
Lemma resolve_dict_fold (p : string -> bool) (d : gmap string Z) (descs : list string)
    (m : gmap string Z) (dr : list string) :
  exists m',
    foldl (resolve_step p (IsDict d)) (m, dr, tt) descs = (m', dr, tt) /\
    forall k, m' !! k =
              match m !! k with
              | Some v => Some v
              | None => if bool_decide (k ∈ descs) && p k then d !! k else None
              end.
Proof.
  revert m. induction descs as [|desc descs IH]; intros m.
  - exists m. split; [done|]. intros k. by destruct (m !! k).
  - cbn [foldl].
    assert (Hstep : exists m1,
      resolve_step p (IsDict d) (m, dr, tt) desc = (m1, dr, tt) /\
      forall k, m1 !! k =
                match m !! k with
                | Some v => Some v
                | None => if bool_decide (k = desc) && p k then d !! k else None
                end).
    { unfold resolve_step.
      destruct (m !! desc) as [v|] eqn:Hm.
      - rewrite bool_decide_eq_true_2 by eauto. exists m. split; [done|].
        intros k. destruct (m !! k) eqn:Hk; [done|].
        destruct (decide (k = desc)) as [->|Hne]; [congruence|].
        by rewrite bool_decide_eq_false_2.
      - rewrite bool_decide_eq_false_2 by (by intros [? ?]).
        destruct (p desc) eqn:Hp; simpl.
        + destruct (d !! desc) as [v|] eqn:Hd.
          * exists (<[desc := v]> m). split; [done|]. intros k.
            destruct (decide (k = desc)) as [->|Hne].
            -- rewrite lookup_insert_eq, Hm, bool_decide_eq_true_2, Hp by done. by rewrite Hd.
            -- rewrite lookup_insert_ne by done. rewrite bool_decide_eq_false_2 by done.
               by destruct (m !! k).
          * exists m. split; [done|]. intros k. destruct (m !! k) eqn:Hk; [done|].
            destruct (decide (k = desc)) as [->|Hne].
            -- rewrite bool_decide_eq_true_2, Hp by done. by rewrite Hd.
            -- by rewrite bool_decide_eq_false_2.
        + exists m. split; [done|]. intros k. destruct (m !! k) eqn:Hk; [done|].
          destruct (decide (k = desc)) as [->|Hne].
          -- rewrite bool_decide_eq_true_2, Hp by done. done.
          -- by rewrite bool_decide_eq_false_2. }
    destruct Hstep as (m1 & -> & Hm1). destruct (IH m1) as (m' & -> & Hm').
    exists m'. split; [done|]. intros k. rewrite Hm', Hm1.
    destruct (m !! k); [done|].
    destruct (decide (k = desc)) as [->|Hne].
    + rewrite bool_decide_eq_true_2 by done.
      rewrite (bool_decide_eq_true_2 (desc ∈ desc :: descs)) by left.
      destruct (p desc); simpl; [|by rewrite andb_false_r].
      destruct (d !! desc); [done|]. by destruct (bool_decide _).
    + rewrite (bool_decide_eq_false_2 (k = desc)) by done. simpl.
      destruct (decide (k ∈ descs)) as [Hin|Hin].
      * rewrite !bool_decide_eq_true_2; [done| by right | done].
      * rewrite !bool_decide_eq_false_2; [done| | done].
        intros Hin'. apply elem_of_cons in Hin' as [?|?]; done.
Qed.

Lemma resolved_dict_lookup (p : string -> bool) (d : gmap string Z) (descs : list string)
    (k : string) :
  (resolve_loop p (IsDict d) tt descs).1.1 !! k =
    if bool_decide (k ∈ descs) && p k then d !! k else None.
Proof.
  unfold resolve_loop. destruct (resolve_dict_fold p d descs ∅ []) as (m' & -> & Hm').
  simpl. rewrite Hm'. by rewrite lookup_empty.
Qed.

Lemma np_take_event_sel {A : Type} (m : gmap string Z) (descs : list string)
    (xs pre : list A) :
  length xs = length descs ->
  np_take (pre ++ xs) (event_sel_from m (length pre) descs) =
    Ok (mask_select (map (has_code m) descs) xs).
Proof.
  revert xs pre. induction descs as [|kk descs IH]; intros [|x xs] pre Hlen;
    simplify_eq/=; [done|].
  assert (Hrest : np_take (pre ++ x :: xs) (event_sel_from m (S (length pre)) descs) =
                  Ok (mask_select (map (has_code m) descs) xs)).
  { replace (pre ++ x :: xs) with ((pre ++ [x]) ++ xs) by (by rewrite <- app_assoc).
    replace (S (length pre)) with (length (pre ++ [x]))
      by (rewrite length_app; simpl; lia).
    by apply IH. }
  unfold has_code at 1. destruct (bool_decide (is_Some (m !! kk))); [|done].
  simpl. rewrite list_lookup_middle by done. by rewrite Hrest.
Qed.

Lemma np_take_event_sel0 {A : Type} (m : gmap string Z) (descs : list string)
    (xs : list A) :
  length xs = length descs ->
  np_take xs (event_sel_from m 0 descs) = Ok (mask_select (map (has_code m) descs) xs).
Proof. apply (np_take_event_sel m descs xs []). Qed.

Lemma length_event_sel (m : gmap string Z) (descs : list string) (pos : nat) :
  length (event_sel_from m pos descs) = count_true (map (has_code m) descs).
Proof.
  revert pos. unfold count_true.
  induction descs as [|kk descs IH]; intros pos; simpl; [done|].
  unfold has_code at 1. destruct (bool_decide _); simpl; [f_equal|]; apply IH.
Qed.

Lemma lookup_all_selected (m : gmap string Z) (descs : list string) :
  lookup_all m (mask_select (map (has_code m) descs) descs) =
    Ok (map (fun kk => default 0%Z (m !! kk))
            (mask_select (map (has_code m) descs) descs)).
Proof.
  induction descs as [|kk descs IH]; simpl; [done|].
  destruct (m !! kk) as [v|] eqn:Hm.
  - assert (Hc : has_code m kk = true).
    { unfold has_code. rewrite Hm. by apply bool_decide_eq_true_2. }
    rewrite !Hc. simpl. by rewrite Hm, IH.
  - assert (Hc : has_code m kk = false).
    { unfold has_code. rewrite Hm. apply bool_decide_eq_false_2. by intros [? ?]. }
    by rewrite !Hc.
Qed.

Lemma event_rows (keep : string -> bool) (val : string -> Z) (g : Z -> Z)
    (f : Z * string -> option (Z * Z * Z)) (tix : list Z) (descs : list string) :
  length tix = length descs ->
  (forall i desc, desc ∈ descs ->
     f (i, desc) = if keep desc then Some (g i, 0%Z, val desc) else None) ->
  np_c_ (mask_select (map keep descs) (map g tix))
        (replicate (count_true (map keep descs)) 0%Z)
        (map val (mask_select (map keep descs) descs)) =
    Ok (omap f (zip tix descs)).
Proof.
  intros Hlen Hf.
  assert (H : zip (zip (mask_select (map keep descs) (map g tix))
                       (replicate (count_true (map keep descs)) 0%Z))
                  (map val (mask_select (map keep descs) descs)) =
              omap f (zip tix descs) /\
              length (mask_select (map keep descs) (map g tix)) =
                count_true (map keep descs) /\
              length (mask_select (map keep descs) descs) = count_true (map keep descs)).
  { revert tix Hlen Hf. unfold count_true.
    induction descs as [|desc descs IH]; intros [|i tix] Hlen Hf; simplify_eq/=; [done|].
    destruct (IH tix) as (IH1 & IH2 & IH3); [done| |].
    { intros j k Hk. apply Hf. by right. }
    rewrite (Hf i desc) by left. destruct (keep desc); simpl.
    - rewrite IH1, IH2, IH3. done.
    - done. }
  destruct H as (H1 & H2 & H3). unfold np_c_.
  rewrite length_replicate, length_map, H2, H3, !Nat.eqb_refl. simpl. by rewrite H1.
Qed.

Lemma event_sel_nil (m : gmap string Z) (descs : list string) (pos : nat) :
  event_sel_from m pos descs = [] <-> forallb (fun kk => negb (has_code m kk)) descs = true.
Proof.
  revert pos. induction descs as [|kk descs IH]; intros pos; simpl; [done|].
  unfold has_code at 1. destruct (bool_decide _); simpl; [split; done|]. apply IH.
Qed.

Lemma has_code_dict (p : string -> bool) (d : gmap string Z) (descs : list string)
    (kk : string) :
  kk ∈ descs ->
  has_code (resolve_loop p (IsDict d) tt descs).1.1 kk = survives d p kk.
Proof.
  intros Hin. unfold has_code, survives. rewrite resolved_dict_lookup.
  rewrite (bool_decide_eq_true_2 (kk ∈ descs)) by done. simpl.
  destruct (p kk); simpl; done.
Qed.

Lemma map_ext_elem {A B : Type} (f g : A -> B) (l : list A) :
  (forall x, x ∈ l -> f x = g x) -> map f l = map g l.
Proof.
  induction l as [|x l IH]; intros H; simpl; [done|].
  rewrite (H x) by left. rewrite IH; [done|]. intros y Hy. apply H. by right.
Qed.

Lemma events_dict (raw : Raw) (d : gmap string Z) (regexp : option (string -> bool))
    (use_rounding : bool) :
  let a := annotations raw in
  let p := pattern_of regexp in
  len a <> 0 ->
  sizes_equal a ->
  length (time_as_index raw (onset a) use_rounding (orig_time a)) = length (onset a) ->
  events_from_annotations raw (EventIdDict d) regexp use_rounding =
    if bool_decide (is_Some regexp) &&
       forallb (fun desc => negb (survives d p desc)) (description a)
    then Err (ValueError NoEventsFound)
    else Ok (dict_events raw d p use_rounding,
             Resolved (filter (fun kv => p kv.1 = true /\ kv.1 ∈ description a) d)).
Proof.
  intros a p Hlen [Hs1 Hs2] Htix.
  unfold events_from_annotations. fold a.
  rewrite (proj2 (Nat.eqb_neq _ _) Hlen).
  unfold events_with. fold a. fold (pattern_of regexp). fold p.
  pose proof (resolved_dict_lookup p d (description a)) as Hlook.
  pose proof (has_code_dict p d (description a)) as Hcode.
  destruct (resolve_loop p (IsDict d) tt (description a)) as [[m dr] u] eqn:Hloop.
  simpl in Hlook, Hcode.
  rewrite length_event_sel.
  assert (Hkeep : map (has_code m) (description a) =
                  map (survives d p) (description a)) by (by apply map_ext_elem).
  assert (Hnone : (count_true (map (has_code m) (description a)) =? 0)%nat =
                  forallb (fun desc => negb (survives d p desc)) (description a)).
  { rewrite Hkeep. unfold count_true. clear.
    induction (description a) as [|k l IH]; simpl; [done|].
    destruct (survives d p k); simpl; [done|apply IH]. }
  rewrite Hnone, andb_comm.
  destruct (bool_decide (is_Some regexp) && forallb _ _); [done|].
  rewrite (np_take_event_sel0 m (description a) (description a)) by done.
  cbn [mbind result_bind]. rewrite lookup_all_selected. cbn [mbind result_bind].
  rewrite (np_take_event_sel0 m (description a)).
  2:{ rewrite length_map, Htix. congruence. }
  cbn [mbind result_bind].
  rewrite (event_rows (has_code m) (fun kk => default 0%Z (m !! kk))
             (fun i => (i + first_samp raw)%Z)
             (fun '(i, desc) =>
                if p desc then v ← d !! desc; Some ((i + first_samp raw)%Z, 0%Z, v)
                else None)).
  - cbn [mbind result_bind]. unfold dict_events. fold a. do 3 f_equal.
    apply map_eq. intros k. rewrite Hlook, map_lookup_filter.
    destruct (d !! k) as [v|] eqn:Hd; simpl.
    + case_guard as Hg; simpl.
      * destruct Hg as [Hp Hin]. by rewrite bool_decide_eq_true_2, Hp.
      * destruct (decide (k ∈ description a)) as [Hin|Hin].
        -- rewrite bool_decide_eq_true_2 by done. simpl.
           destruct (p k) eqn:Hp; [|done]. exfalso. by apply Hg.
        -- by rewrite bool_decide_eq_false_2.
    + by destruct (_ && _).
  - rewrite Htix. congruence.
  - intros i desc Hin. rewrite (Hcode desc Hin). unfold survives.
    rewrite Hlook, (bool_decide_eq_true_2 (desc ∈ description a)) by done. simpl.
    destruct (p desc); simpl; [|done].
    destruct (d !! desc) as [v|] eqn:Hd; simpl; done.
Qed.

Lemma surviving_rows_nil_fails (raw : Raw) (event_id : event_id_t)
    (regexp : option (string -> bool)) (use_rounding : bool) :
  len (annotations raw) <> 0 ->
  is_Some regexp ->
  surviving_rows raw event_id regexp = [] ->
  events_from_annotations raw event_id regexp use_rounding =
    Err (ValueError NoEventsFound).
Proof.
  intros Hlen Hre Hnil. unfold events_from_annotations.
  rewrite (proj2 (Nat.eqb_neq _ _) Hlen).
  unfold surviving_rows, resolved_map in Hnil.
  destruct event_id as [|d|f]; unfold events_with;
    fold (pattern_of regexp);
    match goal with |- context [resolve_loop ?p ?e ?s ?l] =>
      destruct (resolve_loop p e s l) as [[m dr] st] end;
    simpl in Hnil; rewrite Hnil; simpl;
    by rewrite bool_decide_eq_true_2.
Qed.

Lemma unmatched_rows_do_not_survive (raw : Raw) (event_id : event_id_t)
    (regexp : option (string -> bool)) :
  (forall desc, desc ∈ description (annotations raw) -> pattern_of regexp desc = false) ->
  surviving_rows raw event_id regexp = [].
Proof.
  intros Hp. unfold surviving_rows. apply event_sel_nil.
  apply forallb_forall. intros kk Hin. apply list_elem_of_In in Hin.
  apply negb_true_iff, bool_decide_eq_false_2. intros Hk.
  assert (Hkey : kk ∈ description (annotations raw) /\ pattern_of regexp kk = true).
  { unfold resolved_map in Hk. destruct event_id; by apply resolve_loop_keys in Hk. }
  destruct Hkey as [_ Hkey]. rewrite (Hp kk Hin) in Hkey. discriminate.
Qed.




(** With the mapping {'a': 1} and the default pattern, the rows 'a', 'b',
    'a' give the events of the two 'a' rows; the row 'b' is dropped. *)
Example events_aba_dict :
  dict_events raw_aba {["a" := 1%Z]} (fun _ => true) true =
    [(1%Z, 0%Z, 1%Z); (3%Z, 0%Z, 1%Z)].
Proof. vm_compute. reflexivity. Qed.

(** Without code map the counter gives 'a' the code 1 and 'b' the code 2;
    both 'a' rows carry the same code. *)
Example events_aba_counter :
  match events_from_annotations raw_aba EventIdNone None true with
  | Ok (events, _) => Some events
  | Err _ => None
  end = Some [(1%Z, 0%Z, 1%Z); (2%Z, 0%Z, 2%Z); (3%Z, 0%Z, 1%Z)].
Proof. vm_compute. reflexivity. Qed.

(** ** Persistence: the codec of the descriptions

    [_write_annotations] replaces every ':' of a description by ';'
    (line 426) and hands the descriptions over as a name list, a string
    in which ':' separates the names; [_read_annotations] splits that
    string on ':' and replaces ';' by ':' in every field (lines 514-516).
    On descriptions without ';' the reading undoes the writing. *)

Lemma escape_has_no_colon (d : string) :
  contains_char colon (replace_char colon semicolon d) = false.
Proof.
  induction d as [|c d IH]; simpl; [done|].
  destruct (Ascii.eqb c colon) eqn:Hc; simpl; [done|]. by rewrite Hc.
Qed.

Lemma unescape_escape (d : string) :
  contains_char semicolon d = false ->
  replace_char semicolon colon (replace_char colon semicolon d) = d.
Proof.
  induction d as [|c d IH]; simpl; [done|].
  destruct (Ascii.eqb c semicolon) eqn:Hs; [done|]. intros Hd.
  destruct (Ascii.eqb c colon) eqn:Hc; simpl.
  - apply Ascii.eqb_eq in Hc as ->. by rewrite IH.
  - by rewrite Hs, IH.
Qed.

Lemma split_char_single (sep : ascii) (s : string) :
  contains_char sep s = false -> split_char sep s = [s].
Proof.
  induction s as [|c s IH]; simpl; [done|].
  destruct (Ascii.eqb c sep); [done|]. intros H. by rewrite IH.
Qed.

Lemma split_char_app (sep : ascii) (s rest : string) :
  contains_char sep s = false ->
  split_char sep (s +:+ String sep rest) = s :: split_char sep rest.
Proof.
  induction s as [|c s IH]; simpl.
  - intros _. by rewrite Ascii.eqb_refl.
  - destruct (Ascii.eqb c sep); [done|]. intros H. by rewrite IH.
Qed.

Lemma split_join (sep : ascii) (l : list string) :
  l <> [] ->
  Forall (fun s => contains_char sep s = false) l ->
  split_char sep (join_char sep l) = l.
Proof.
  induction l as [|s l IH]; [done|]. intros _ Hl.
  apply Forall_cons in Hl as [Hs Hl]. destruct l as [|s' l].
  - simpl. by apply split_char_single.
  - change (join_char sep (s :: s' :: l))
      with (s +:+ String sep (join_char sep (s' :: l))).
    rewrite split_char_app by done. by rewrite IH.
Qed.

Lemma description_codec (descs : list string) :
  descs <> [] ->
  Forall (fun d => contains_char semicolon d = false) descs ->
  map (replace_char semicolon colon)
      (split_char colon (join_char colon (map (replace_char colon semicolon) descs))) =
    descs.
Proof.
  intros Hne Hsemi. rewrite split_join.
  - rewrite map_map. rewrite <- (map_id descs) at 2.
    apply map_ext_elem. intros d Hd. apply unescape_escape.
    rewrite Forall_forall in Hsemi. by apply Hsemi.
  - by destruct descs.
  - apply Forall_forall. intros d Hd. apply list_elem_of_fmap in Hd as (d' & -> & _).
    apply escape_has_no_colon.
Qed.

(* ================================================================= *)
(** * Further properties *)

(** ** crop: what is left, and what is reported *)

Lemma this_plus (x y : Qc) : (this (x + y)%Qc == this x + this y)%Q.
Proof. unfold Qcplus, Q2Qc. simpl. apply Qred_correct. Qed.

Lemma this_minus (x y : Qc) : (this (x - y)%Qc == this x - this y)%Q.
Proof. unfold Qcminus, Qcplus, Qcopp, Q2Qc. simpl. by rewrite !Qred_correct. Qed.

Lemma this_opp (x : Qc) : (this (- x)%Qc == - this x)%Q.
Proof. unfold Qcopp, Q2Qc. simpl. apply Qred_correct. Qed.

(** Linear arithmetic on [Qc], through the fractions underneath. *)
Ltac qc_lra :=
  unfold Qcle, Qclt in *;
  repeat match goal with
  | H : context [this (_ + _)%Qc] |- _ => rewrite this_plus in H
  | H : context [this (_ - _)%Qc] |- _ => rewrite this_minus in H
  | H : context [this (- _)%Qc] |- _ => rewrite this_opp in H
  | |- context [this (_ + _)%Qc] => rewrite this_plus
  | |- context [this (_ - _)%Qc] => rewrite this_minus
  | |- context [this (- _)%Qc] => rewrite this_opp
  end;
  change (this (Q2Qc 0)) with 0%Q in *; lra.

Lemma crop_full rows orig tmin tmax emit_warning lo hi :
  let a := of_rows rows orig in
  resolved_tmin a tmin = Ok lo ->
  resolved_tmax a tmax = Ok hi ->
  Qc_gtb lo hi = false ->
  Qc_ltb lo 0%Qc = false ->
  crop tmin tmax emit_warning a =
    (of_rows (omap (crop_row (crop_offset a) lo hi) rows) orig,
     Ok (crop_warnings (crop_offset a) lo hi rows emit_warning)).
Proof.
  intros a Hlo Hhi Hgt Hneg.
  unfold resolved_tmin, resolved_tmax in Hlo, Hhi. subst a.
  rewrite rows_of_of_rows in Hlo, Hhi.
  set (off := crop_offset (of_rows rows orig)) in *.
  unfold crop. unfold mbind, meth_bind, get_self, lift. simpl. fold off.
  rewrite !map_map.
  rewrite np_broadcast2_map.
  rewrite Hlo, Hhi, Hgt, Hneg.
  rewrite !map_map, np_broadcast2_map.
  rewrite !map_map, np_broadcast2_map.
  rewrite np_setmask_map, np_getmask_map. simpl.
  rewrite np_getmask_map, map_map, np_broadcast2_map.
  rewrite np_setmask_seq_map.
  rewrite np_broadcast2_map, np_getmask_map. simpl.
  rewrite np_getmask_map, map_map, np_broadcast2_map.
  rewrite np_setmask_seq_map. simpl.
  rewrite !compress_map. simpl.
  unfold mret, meth_ret. rewrite !count_true_map. f_equal.
  unfold of_rows. f_equal.
  - apply map_filter_omap; intros r Hk; unfold crop_row; rewrite Hk; [done|].
    eexists. split; [reflexivity|]. done.
  - apply map_filter_omap; intros r Hk; unfold crop_row; rewrite Hk; [done|].
    eexists. split; [reflexivity|]. done.
  - apply map_filter_omap; intros r Hk; unfold crop_row; rewrite Hk; [done|].
    eexists. split; [reflexivity|]. done.
Qed.

Lemma crop_full_sizes (a : Annotations) tmin tmax emit_warning lo hi :
  sizes_equal a ->
  resolved_tmin a tmin = Ok lo ->
  resolved_tmax a tmax = Ok hi ->
  (lo <= hi)%Qc ->
  (0 <= lo)%Qc ->
  crop tmin tmax emit_warning a =
    (of_rows (omap (crop_row (crop_offset a) lo hi) (rows_of a)) (orig_time a),
     Ok (crop_warnings (crop_offset a) lo hi (rows_of a) emit_warning)).
Proof.
  intros Hsz Hlo Hhi Hle Hpos.
  pose proof (crop_full (rows_of a) (orig_time a) tmin tmax emit_warning lo hi) as H.
  cbv zeta in H. rewrite (of_rows_rows_of a Hsz) in H.
  apply H; try done; by apply Qc_ltb_ge.
Qed.

(** One row: what is kept lies within the window, and a row within the
    window is kept as it is. *)
Lemma crop_row_within (offset lo hi : Qc) (r r' : row) :
  (lo <= hi)%Qc ->
  crop_row offset lo hi r = Some r' ->
  row_within offset lo hi r' /\ row_description r' = row_description r /\
  ((0 <= row_duration r)%Qc -> (0 <= row_duration r')%Qc).
Proof.
  intros Hle. unfold crop_row, Qc_gtb.
  destruct (Qc_ltb hi (row_onset r + offset)) eqn:H1; [done|].
  destruct (Qc_ltb (row_onset r + offset + row_duration r) lo) eqn:H2; [done|].
  cbn [orb negb andb]. rewrite !andb_true_r.
  apply Qc_ltb_ge in H1, H2.
  destruct (Qc_ltb (row_onset r + offset) lo) eqn:H3;
    destruct (Qc_ltb hi (row_onset r + offset + row_duration r)) eqn:H4;
    intros [= <-]; unfold row_within, row_onset, row_duration, row_description in *;
    destruct r as [[o d] s]; cbn [fst snd] in *;
    try apply Qc_ltb_lt in H3; try apply Qc_ltb_ge in H3;
    try apply Qc_ltb_lt in H4; try apply Qc_ltb_ge in H4;
    (split; [|split; [done|]]); [repeat split | intros Hd | repeat split | intros Hd
                                 | repeat split | intros Hd | repeat split | intros Hd];
    qc_lra.
Qed.

Lemma crop_row_fixed (offset lo hi : Qc) (r : row) :
  row_within offset lo hi r ->
  crop_row offset lo hi r = Some r /\
  row_out_of_bounds offset lo hi r = false /\
  row_clip_left offset lo hi r = false /\
  row_clip_right offset lo hi r = false.
Proof.
  intros (H1 & H2 & H3 & H4).
  unfold crop_row, row_clip_left, row_clip_right, row_out_of_bounds, Qc_gtb.
  rewrite (proj2 (Qc_ltb_ge _ _) H1), (proj2 (Qc_ltb_ge _ _) H2),
    (proj2 (Qc_ltb_ge _ _) H3), (proj2 (Qc_ltb_ge _ _) H4).
  simpl. by destruct r as [[o d] s].
Qed.

Lemma omap_crop_rows (offset lo hi : Qc) (rows : list row) :
  (lo <= hi)%Qc ->
  let rows' := omap (crop_row offset lo hi) rows in
  Forall (row_within offset lo hi) rows' /\
  sublist (map row_description rows') (map row_description rows) /\
  (length rows' + length (List.filter (row_out_of_bounds offset lo hi) rows) =
     length rows)%nat /\
  (Forall (fun r => (0 <= row_duration r)%Qc) rows ->
   Forall (fun r => (0 <= row_duration r)%Qc) rows').
Proof.
  intros Hle. induction rows as [|r rows IH]; csimpl.
  - repeat split; try constructor; try done.
  - destruct IH as (IH1 & IH2 & IH3 & IH4).
    assert (Hoob : crop_row offset lo hi r =
                   if row_out_of_bounds offset lo hi r then None
                   else crop_row offset lo hi r).
    { unfold crop_row, row_out_of_bounds. by destruct (_ || _). }
    destruct (crop_row offset lo hi r) as [r'|] eqn:Hr.
    + destruct (crop_row_within offset lo hi r r' Hle Hr) as (Hw & Hd & Hnn).
      destruct (row_out_of_bounds offset lo hi r) eqn:Ho; [done|].
      repeat split.
      * by constructor.
      * csimpl. rewrite Hd. by constructor.
      * simpl in *. lia.
      * intros Hall. apply Forall_cons in Hall as [H0 Hall]. constructor; auto.
    + assert (Ho : row_out_of_bounds offset lo hi r = true).
      { unfold crop_row, row_out_of_bounds in *. by destruct (_ || _). }
      repeat split.
      * done.
      * csimpl. by constructor.
      * cbn [List.filter]. rewrite Ho. cbn [length] in *. lia.
      * intros Hall. apply Forall_cons in Hall as [H0 Hall]. auto.
Qed.

Lemma rows_of_length (a : Annotations) :
  sizes_equal a -> length (rows_of a) = length (onset a).
Proof.
  intros Hsz. rewrite <- (of_rows_rows_of a Hsz) at 2. simpl. by rewrite length_map.
Qed.

Lemma rows_of_description (a : Annotations) :
  sizes_equal a -> map row_description (rows_of a) = description a.
Proof. intros Hsz. by rewrite <- (of_rows_rows_of a Hsz) at 2. Qed.

Lemma rows_of_duration (a : Annotations) :
  sizes_equal a -> map row_duration (rows_of a) = duration a.
Proof. intros Hsz. by rewrite <- (of_rows_rows_of a Hsz) at 2. Qed.

Lemma rows_of_onset (a : Annotations) :
  sizes_equal a -> map row_onset (rows_of a) = onset a.
Proof. intros Hsz. by rewrite <- (of_rows_rows_of a Hsz) at 2. Qed.



Lemma omap_fixed {A : Type} (f : A -> option A) (l : list A) :
  Forall (fun x => f x = Some x) l -> omap f l = l.
Proof.
  induction 1 as [|x l Hx _ IH]; csimpl; [done|]. by rewrite Hx, IH.
Qed.

Lemma filter_none {A : Type} (f : A -> bool) (l : list A) :
  Forall (fun x => f x = false) l -> List.filter f l = [].
Proof. induction 1 as [|x l Hx _ IH]; simpl; [done|]. by rewrite Hx. Qed.

Lemma crop_within_rows (rows : list row) (orig : option Qc) (lo hi : Qc)
    (emit_warning : bool) :
  let a := of_rows rows orig in
  (lo <= hi)%Qc ->
  (0 <= lo)%Qc ->
  Forall (row_within (crop_offset a) lo hi) rows ->
  crop (Some lo) (Some hi) emit_warning a = (a, Ok []).
Proof.
  intros a Hle Hpos Hall. subst a.
  rewrite (crop_full rows orig (Some lo) (Some hi) emit_warning lo hi);
    try done; try by apply Qc_ltb_ge.
  f_equal.
  - f_equal. apply omap_fixed. eapply Forall_impl; [exact Hall|].
    intros r Hr. by apply crop_row_fixed.
  - f_equal. unfold crop_warnings. destruct emit_warning; [|done].
    rewrite !filter_none; [done|..];
      (eapply Forall_impl; [exact Hall|]; intros r Hr;
       by destruct (crop_row_fixed _ _ _ _ Hr) as (? & ? & ? & ?)).
Qed.



Lemma Qc_min_spec (x y : Qc) :
  (Qc_min x y <= x)%Qc /\ (Qc_min x y <= y)%Qc /\ (Qc_min x y = x \/ Qc_min x y = y).
Proof.
  unfold Qc_min. destruct (Qc_ltb y x) eqn:H.
  - apply Qc_ltb_lt in H. repeat split; [by apply Qclt_le_weak|apply Qcle_refl|by right].
  - apply Qc_ltb_ge in H. repeat split; [apply Qcle_refl|done|by left].
Qed.

Lemma Qc_max_spec (x y : Qc) :
  (x <= Qc_max x y)%Qc /\ (y <= Qc_max x y)%Qc /\ (Qc_max x y = x \/ Qc_max x y = y).
Proof.
  unfold Qc_max. destruct (Qc_ltb x y) eqn:H.
  - apply Qc_ltb_lt in H. repeat split; [by apply Qclt_le_weak|apply Qcle_refl|by right].
  - apply Qc_ltb_ge in H. repeat split; [apply Qcle_refl|done|by left].
Qed.

Lemma np_min_spec (l : list Qc) (m : Qc) :
  np_min l = Ok m -> m ∈ l /\ Forall (fun x => (m <= x)%Qc) l.
Proof.
  destruct l as [|x l]; [done|]. simpl. intros [= <-].
  assert (H : forall y, (foldl Qc_min y l <= y)%Qc /\
                        (foldl Qc_min y l = y \/ foldl Qc_min y l ∈ l) /\
                        Forall (fun x => (foldl Qc_min y l <= x)%Qc) l).
  { induction l as [|z l IH]; intros y; simpl.
    - split; [apply Qcle_refl|]. split; [by left|constructor].
    - destruct (IH (Qc_min y z)) as (H1 & H2 & H3).
      destruct (Qc_min_spec y z) as (M1 & M2 & M3).
      split; [by eapply Qcle_trans|]. split.
      + destruct H2 as [->|H2]; [|right; by right].
        destruct M3 as [->| ->]; [by left|right; left].
      + constructor; [by eapply Qcle_trans|done]. }
  destruct (H x) as (H1 & H2 & H3). split.
  - destruct H2 as [->|H2]; [left|by right].
  - by constructor.
Qed.

Lemma np_max_spec (l : list Qc) (m : Qc) :
  np_max l = Ok m -> m ∈ l /\ Forall (fun x => (x <= m)%Qc) l.
Proof.
  destruct l as [|x l]; [done|]. simpl. intros [= <-].
  assert (H : forall y, (y <= foldl Qc_max y l)%Qc /\
                        (foldl Qc_max y l = y \/ foldl Qc_max y l ∈ l) /\
                        Forall (fun x => (x <= foldl Qc_max y l)%Qc) l).
  { induction l as [|z l IH]; intros y; simpl.
    - split; [apply Qcle_refl|]. split; [by left|constructor].
    - destruct (IH (Qc_max y z)) as (H1 & H2 & H3).
      destruct (Qc_max_spec y z) as (M1 & M2 & M3).
      split; [by eapply Qcle_trans|]. split.
      + destruct H2 as [->|H2]; [|right; by right].
        destruct M3 as [->| ->]; [by left|right; left].
      + constructor; [by eapply Qcle_trans|done]. }
  destruct (H x) as (H1 & H2 & H3). split.
  - destruct H2 as [->|H2]; [left|by right].
  - by constructor.
Qed.

(** X5. With both bounds omitted, [crop] changes nothing on a set with at
    least one row, no negative duration and no negative absolute onset:
    the default window spans every row. *)
Theorem crop_default_bounds_identity (a : Annotations) (emit_warning : bool) :
  sizes_equal a ->
  onset a <> [] ->
  Forall (fun r => (0 <= row_onset r + crop_offset a)%Qc /\ (0 <= row_duration r)%Qc)
         (rows_of a) ->
  crop None None emit_warning a = (a, Ok []).
Proof.
  intros Hsz Hne Hall.
  destruct (rows_of a) as [|r0 rows] eqn:Hrows.
  { exfalso. apply Hne. by rewrite <- (rows_of_onset a Hsz), Hrows. }
  set (off := crop_offset a) in *.
  destruct (np_min (map (fun r => (row_onset r + off)%Qc) (r0 :: rows))) as [lo|] eqn:Hlo;
    [|done].
  destruct (np_max (map (fun r => (row_onset r + off + row_duration r)%Qc) (r0 :: rows)))
    as [hi|] eqn:Hhi; [|done].
  destruct (np_min_spec _ _ Hlo) as (Hlo_in & Hlo_le).
  destruct (np_max_spec _ _ Hhi) as (Hhi_in & Hhi_le).
  rewrite Forall_fmap in Hlo_le, Hhi_le.
  assert (Hw : Forall (row_within off lo hi) (r0 :: rows)).
  { apply Forall_forall. intros r Hr.
    pose proof (proj1 (Forall_forall _ _) Hall r Hr) as [Ho Hd].
    pose proof (proj1 (Forall_forall _ _) Hlo_le r Hr) as Hl. simpl in Hl.
    pose proof (proj1 (Forall_forall _ _) Hhi_le r Hr) as Hh. simpl in Hh.
    unfold row_within. repeat split; qc_lra. }
  assert (Hr0 : row_within off lo hi r0) by (by apply Forall_cons in Hw as [? _]).
  assert (Hpos : (0 <= lo)%Qc).
  { apply list_elem_of_fmap in Hlo_in as (r & -> & Hr).
    by pose proof (proj1 (Forall_forall _ _) Hall r Hr) as [Ho Hd]. }
  assert (Hle : (lo <= hi)%Qc).
  { destruct Hr0 as (H1 & H2 & _). by eapply Qcle_trans. }
  pose proof (crop_full (rows_of a) (orig_time a) None None emit_warning lo hi) as Hc.
  cbv zeta in Hc. rewrite (of_rows_rows_of a Hsz) in Hc.
  unfold resolved_tmin, resolved_tmax in Hc. fold off in Hc. rewrite Hrows in Hc.
  rewrite Hc; try done; try by apply Qc_ltb_ge.
  f_equal.
  - rewrite omap_fixed.
    + rewrite <- Hrows. by apply of_rows_rows_of.
    + eapply Forall_impl; [exact Hw|]. intros r Hr. by apply crop_row_fixed.
  - f_equal. unfold crop_warnings. destruct emit_warning; [|done].
    rewrite !filter_none; [done|..];
      (eapply Forall_impl; [exact Hw|]; intros r Hr;
       by destruct (crop_row_fixed _ _ _ _ Hr) as (? & ? & ? & ?)).
Qed.

(** X6. The warnings of [crop]: none unless asked for; the count reported
    as omitted is the number of rows removed, and is reported only if
    positive; the count reported as limited is the number of left clips
    plus the number of right clips, so that a row clipped on both sides
    counts twice. *)
Theorem crop_warning_counts (a : Annotations) (tmin tmax : option Qc)
    (emit_warning : bool) (lo hi : Qc) :
  sizes_equal a ->
  resolved_tmin a tmin = Ok lo ->
  resolved_tmax a tmax = Ok hi ->
  (lo <= hi)%Qc ->
  (0 <= lo)%Qc ->
  exists a' ws,
    crop tmin tmax emit_warning a = (a', Ok ws) /\
    (emit_warning = false -> ws = []) /\
    (forall n, Omitted n ∈ ws <->
               emit_warning = true /\ (0 < n)%nat /\
               (n + length (onset a') = length (onset a))%nat) /\
    (forall n, Limited n ∈ ws <->
               emit_warning = true /\ (0 < n)%nat /\
               n = (length (List.filter (row_clip_left (crop_offset a) lo hi) (rows_of a))
                    + length (List.filter (row_clip_right (crop_offset a) lo hi)
                                          (rows_of a)))%nat).
Proof.
  intros Hsz Hlo Hhi Hle Hpos.
  rewrite (crop_full_sizes a tmin tmax emit_warning lo hi) by done.
  destruct (omap_crop_rows (crop_offset a) lo hi (rows_of a) Hle) as (_ & _ & Hlen & _).
  cbv zeta in Hlen. rewrite (rows_of_length a Hsz) in Hlen.
  eexists _, _. split; [reflexivity|]. simpl. rewrite length_map.
  unfold crop_warnings.
  set (om := length (List.filter (row_out_of_bounds (crop_offset a) lo hi) (rows_of a)))
    in *.
  set (li := (length (List.filter (row_clip_left (crop_offset a) lo hi) (rows_of a))
              + length (List.filter (row_clip_right (crop_offset a) lo hi) (rows_of a)))%nat).
  destruct emit_warning.
  - split; [done|]. split; intros n.
    + rewrite elem_of_app. split.
      * intros [H|H].
        -- destruct (Nat.ltb_spec 0 om); [|by apply elem_of_nil in H].
           apply list_elem_of_singleton in H as [= ->]. repeat split; [done|lia].
        -- destruct (0 <? li)%nat; [|by apply elem_of_nil in H].
           by apply list_elem_of_singleton in H.
      * intros (_ & Hn & Hsum). left. assert (n = om) as -> by lia.
        rewrite (proj2 (Nat.ltb_lt 0 om) Hn). by apply list_elem_of_singleton.
    + rewrite elem_of_app. split.
      * intros [H|H].
        -- destruct (0 <? om)%nat; [|by apply elem_of_nil in H].
           by apply list_elem_of_singleton in H.
        -- destruct (Nat.ltb_spec 0 li); [|by apply elem_of_nil in H].
           apply list_elem_of_singleton in H as [= ->]. done.
      * intros (_ & Hn & ->). right.
        rewrite (proj2 (Nat.ltb_lt 0 li) Hn). by apply list_elem_of_singleton.
  - split; [done|]. split; intros n; split; try (by intros H; apply elem_of_nil in H).
    + by intros [? _].
    + by intros [? _].
Qed.





Lemma crop_default_bounds_identity_witness :
  crop None None true four_rows = (four_rows, Ok []).
Proof.
  apply (crop_default_bounds_identity four_rows true (conj eq_refl eq_refl)
           ltac:(discriminate)).
  repeat constructor; by apply Qc_ltb_ge.
Defined.

Lemma crop_warning_counts_witness :
  exists a' ws,
    crop (Some (flt 2)) (Some (flt 5)) true four_rows = (a', Ok ws) /\
    (true = false -> ws = []) /\
    (forall n, Omitted n ∈ ws <->
               true = true /\ (0 < n)%nat /\
               (n + length (onset a') = length (onset four_rows))%nat) /\
    (forall n, Limited n ∈ ws <->
               true = true /\ (0 < n)%nat /\
               n = (length (List.filter (row_clip_left (crop_offset four_rows) (flt 2) (flt 5))
                                        (rows_of four_rows))
                    + length (List.filter (row_clip_right (crop_offset four_rows) (flt 2)
                                             (flt 5)) (rows_of four_rows)))%nat).
Proof.
  apply (crop_warning_counts four_rows (Some (flt 2)) (Some (flt 5)) true
           (flt 2) (flt 5) (conj eq_refl eq_refl) eq_refl eq_refl
           ltac:(by apply Qc_ltb_ge) ltac:(by apply Qc_ltb_ge)).
Defined.

(** ** append, delete and concatenation *)

Lemma remove_positions_keep {A : Type} (ks : list nat) (l : list A) (pos : nat) :
  (forall i, pos <= i < pos + length l -> i ∉ ks) ->
  remove_positions pos ks l = l.
Proof.
  revert pos. induction l as [|x l IH]; intros pos H; simpl; [done|].
  rewrite bool_decide_eq_false_2 by (apply H; simpl; lia).
  f_equal. apply IH. intros i Hi. apply H. simpl. lia.
Qed.

Lemma remove_positions_drop {A : Type} (ks : list nat) (l : list A) (pos : nat) :
  (forall i, pos <= i < pos + length l -> i ∈ ks) ->
  remove_positions pos ks l = [].
Proof.
  revert pos. induction l as [|x l IH]; intros pos H; simpl; [done|].
  rewrite bool_decide_eq_true_2 by (apply H; simpl; lia).
  apply IH. intros i Hi. apply H. simpl. lia.
Qed.

Lemma remove_positions_app {A : Type} (ks : list nat) (l l' : list A) (pos : nat) :
  remove_positions pos ks (l ++ l') =
  remove_positions pos ks l ++ remove_positions (pos + length l) ks l'.
Proof.
  revert pos. induction l as [|x l IH]; intros pos; simpl.
  - by rewrite Nat.add_0_r.
  - rewrite IH. replace (S pos + length l) with (pos + S (length l)) by lia.
    by destruct (bool_decide _).
Qed.

Lemma remove_appended {A : Type} (l l' : list A) :
  remove_positions 0 (seq (length l) (length l')) (l ++ l') = l.
Proof.
  rewrite remove_positions_app, remove_positions_keep, remove_positions_drop.
  - by rewrite app_nil_r.
  - intros i Hi. apply elem_of_seq. lia.
  - intros i Hi Hin. apply elem_of_seq in Hin. lia.
Qed.

Lemma norm_indices_seq (n k : nat) :
  norm_indices (n + k) (map Z.of_nat (seq n k)) = Ok (seq n k).
Proof.
  assert (H : forall j m, j + m <= n + k ->
                norm_indices (n + k) (map Z.of_nat (seq j m)) = Ok (seq j m)).
  { intros j m. revert j. induction m as [|m IH]; intros j Hj; simpl; [done|].
    unfold norm_index.
    destruct (Z.leb_spec 0 (Z.of_nat j)); [|lia].
    destruct (Z.ltb_spec (Z.of_nat j) (Z.of_nat (n + k))); [|lia].
    simpl. rewrite Nat2Z.id, IH by lia. done. }
  apply H. lia.
Qed.

Lemma np_delete_appended {A : Type} (l l' : list A) :
  np_delete (l ++ l') (Many (map Z.of_nat (seq (length l) (length l')))) = Ok l.
Proof.
  unfold np_delete. simpl. rewrite length_app, norm_indices_seq.
  by rewrite remove_appended.
Qed.

(** X7. Appending rows and then deleting the positions they were appended
    at gives the set back: [delete] undoes [append]. *)
Theorem append_then_delete (a : Annotations) (new_onset new_duration : scalar_or_seq Qc)
    (new_description : scalar_or_seq string) :
  sizes_equal a ->
  length (ravel new_onset) = length (ravel new_duration) ->
  length (ravel new_duration) = length (ravel new_description) ->
  let added := map Z.of_nat (seq (length (onset a)) (length (ravel new_onset))) in
  exists a1,
    append new_onset new_duration new_description a = (a1, Ok tt) /\
    delete (Many added) a1 = (a, Ok tt).
Proof.
  intros [H1 H2] H3 H4 added. eexists. split; [reflexivity|].
  unfold delete, mbind, meth_bind, get_self, lift. simpl. unfold np_append.
  subst added. rewrite np_delete_appended. simpl.
  rewrite H1, H3, np_delete_appended. simpl.
  rewrite H2, H4, np_delete_appended. simpl. by destruct a.
Qed.

Lemma append_then_delete_witness :
  exists a1,
    append (One (flt 3)) (One (flt 1)) (One "blink") ten_seconds = (a1, Ok tt) /\
    delete (Many [1%Z]) a1 = (ten_seconds, Ok tt).
Proof.
  apply (append_then_delete ten_seconds (One (flt 3)) (One (flt 1)) (One "blink")
           (conj eq_refl eq_refl) eq_refl eq_refl).
Defined.

Lemma remove_one_position {A : Type} (k : nat) (l : list A) (pos : nat) :
  pos <= k -> remove_positions pos [k] l = take (k - pos) l ++ drop (S (k - pos)) l.
Proof.
  revert pos. induction l as [|x l IH]; intros pos Hk; simpl.
  { by rewrite take_nil. }
  destruct (decide (pos = k)) as [->|Hne].
  - rewrite bool_decide_eq_true_2 by (by apply list_elem_of_singleton).
    rewrite Nat.sub_diag. simpl. rewrite drop_0. apply remove_positions_keep.
    intros i Hi Hin. apply list_elem_of_singleton in Hin. lia.
  - rewrite bool_decide_eq_false_2
      by (intros Hin; by apply list_elem_of_singleton in Hin).
    rewrite IH by lia. replace (k - pos) with (S (k - S pos)) by lia. done.
Qed.

Lemma np_delete_one {A : Type} (l : list A) (i : Z) :
  np_delete l (One i) =
    if (0 <=? i)%Z && (i <? Z.of_nat (length l))%Z
    then Ok (take (Z.to_nat i) l ++ drop (S (Z.to_nat i)) l)
    else if (i <? 0)%Z && (- Z.of_nat (length l) <=? i)%Z
    then Ok (take (Z.to_nat (Z.of_nat (length l) + i)) l
             ++ drop (S (Z.to_nat (Z.of_nat (length l) + i))) l)
    else Err IndexError.
Proof.
  unfold np_delete. simpl. unfold norm_index.
  destruct (_ && _); [|destruct (_ && _)]; simpl; try done;
    by rewrite remove_one_position, Nat.sub_0_r by lia.
Qed.

(** X8. [delete] of one position [i] on a set of [n] rows: for
    [0 <= i < n] the row [i] is removed from the three sequences and the
    others keep their order; for [-n <= i < 0] the row [n + i] is; any
    other position raises [IndexError] and leaves the set as it was. *)
Theorem delete_one_row (a : Annotations) (i : Z) :
  sizes_equal a ->
  let n := Z.of_nat (length (onset a)) in
  let without k :=
    mkAnnotations (take k (onset a) ++ drop (S k) (onset a))
                  (take k (duration a) ++ drop (S k) (duration a))
                  (take k (description a) ++ drop (S k) (description a))
                  (orig_time a) in
  ((0 <= i < n)%Z -> delete (One i) a = (without (Z.to_nat i), Ok tt)) /\
  ((- n <= i < 0)%Z -> delete (One i) a = (without (Z.to_nat (n + i)), Ok tt)) /\
  ((i < - n \/ n <= i)%Z -> delete (One i) a = (a, Err IndexError)).
Proof.
  intros [H1 H2] n without.
  assert (Hrun : delete (One i) a =
    if (0 <=? i)%Z && (i <? n)%Z then (without (Z.to_nat i), Ok tt)
    else if (i <? 0)%Z && (- n <=? i)%Z then (without (Z.to_nat (n + i)), Ok tt)
    else (a, Err IndexError)).
  { unfold delete, mbind, meth_bind, get_self, lift. simpl.
    rewrite !np_delete_one. rewrite <- H2, <- H1. fold n.
    destruct (_ && _); [done|]. by destruct (_ && _). }
  rewrite Hrun. split; [|split]; intros Hi.
  - destruct (Z.leb_spec 0 i); [|lia]. destruct (Z.ltb_spec i n); [|lia]. done.
  - destruct (Z.leb_spec 0 i); simpl; [lia|].
    destruct (Z.ltb_spec i 0); [|lia]. destruct (Z.leb_spec (- n) i); [|lia]. done.
  - destruct (Z.leb_spec 0 i); simpl.
    + destruct (Z.ltb_spec i n); [lia|]. simpl.
      destruct (Z.ltb_spec i 0); [lia|]. done.
    + destruct (Z.ltb_spec i 0); [|lia]. destruct (Z.leb_spec (- n) i); [lia|]. done.
Qed.

Lemma delete_one_row_witness :
  delete (One (-1)%Z) four_rows =
    (mkAnnotations (take 3 (onset four_rows) ++ drop 4 (onset four_rows))
                   (take 3 (duration four_rows) ++ drop 4 (duration four_rows))
                   (take 3 (description four_rows) ++ drop 4 (description four_rows))
                   (orig_time four_rows), Ok tt).
Proof.
  apply (proj1 (proj2 (delete_one_row four_rows (-1)%Z (conj eq_refl eq_refl)))).
  simpl. lia.
Defined.

Lemma add_run (self other : Annotations) :
  __add__ self other =
    if bool_decide (orig_time self <> orig_time other /\ len self <> 0)
    then Err (ValueError OrigTimeMismatch)
    else Ok (mkAnnotations (onset self ++ onset other) (duration self ++ duration other)
               (description self ++ description other) (orig_time other)).
Proof. unfold __add__, copy. rewrite iadd_run. by destruct (bool_decide _). Qed.

(** X9. When the three origins are equal, [+] is associative: both
    groupings succeed and give the same set. *)
Theorem add_associative (a b c : Annotations) :
  orig_time a = orig_time b ->
  orig_time b = orig_time c ->
  exists ab bc abc,
    __add__ a b = Ok ab /\ __add__ b c = Ok bc /\
    __add__ ab c = Ok abc /\ __add__ a bc = Ok abc.
Proof.
  intros Hab Hbc. rewrite !add_run.
  rewrite !bool_decide_eq_false_2 by (intros [? _]; congruence).
  eexists _, _, _. split; [reflexivity|]. split; [reflexivity|].
  rewrite !add_run. simpl.
  rewrite !bool_decide_eq_false_2 by (intros [? _]; simpl in *; congruence).
  split; [reflexivity|]. simpl. by rewrite !app_assoc.
Qed.

Lemma add_associative_witness :
  exists ab bc abc,
    __add__ ten_seconds half_second = Ok ab /\ __add__ half_second four_rows = Ok bc /\
    __add__ ab four_rows = Ok abc /\ __add__ ten_seconds bc = Ok abc.
Proof. apply (add_associative ten_seconds half_second four_rows eq_refl eq_refl). Defined.

(** X10. Without equal origins [+] is not associative: for a non-empty
    [a], an empty [b] with another origin and [c] with the origin of [a],
    [a + b] fails, while [b + c] adopts the origin of [c] and
    [a + (b + c)] succeeds. *)
Theorem add_not_associative (a b c : Annotations) :
  len a <> 0 ->
  len b = 0 ->
  orig_time a <> orig_time b ->
  orig_time a = orig_time c ->
  __add__ a b = Err (ValueError OrigTimeMismatch) /\
  exists bc abc, __add__ b c = Ok bc /\ __add__ a bc = Ok abc.
Proof.
  intros Ha Hb Hab Hac. split.
  - rewrite add_run. by rewrite bool_decide_eq_true_2.
  - rewrite add_run. rewrite bool_decide_eq_false_2 by (by intros [_ ?]).
    eexists _, _. split; [reflexivity|].
    rewrite add_run. by rewrite bool_decide_eq_false_2 by (by intros [? _]).
Qed.

Lemma add_not_associative_witness :
  __add__ (with_origin 1) (mkAnnotations [] [] [] (Some (flt 2))) =
    Err (ValueError OrigTimeMismatch) /\
  exists bc abc,
    __add__ (mkAnnotations [] [] [] (Some (flt 2))) (with_origin 1) = Ok bc /\
    __add__ (with_origin 1) bc = Ok abc.
Proof.
  apply (add_not_associative (with_origin 1) (mkAnnotations [] [] [] (Some (flt 2)))
           (with_origin 1) ltac:(discriminate) eq_refl).
  - simpl. intros [= H].
  - reflexivity.
Defined.

(** X11. The empty set as operand of [+]: an empty left operand gives the
    right operand back, origin included, whatever its own origin was; an
    empty right operand gives the left operand back when the origins are
    equal, and is rejected like any other set when they differ and the
    left operand is not empty. *)
Theorem add_empty_operand (a b : Annotations) :
  (onset a = [] -> duration a = [] -> description a = [] -> __add__ a b = Ok b) /\
  (onset b = [] -> duration b = [] -> description b = [] ->
     (orig_time a = orig_time b -> __add__ a b = Ok a) /\
     (orig_time a <> orig_time b -> len a <> 0 ->
        __add__ a b = Err (ValueError OrigTimeMismatch))).
Proof.
  split.
  - intros H1 H2 H3. rewrite add_run.
    rewrite bool_decide_eq_false_2 by (intros [_ H]; apply H; unfold len; by rewrite H2).
    rewrite H1, H2, H3. by destruct b.
  - intros H1 H2 H3. split.
    + intros Ho. rewrite add_run. rewrite bool_decide_eq_false_2 by (by intros [? _]).
      rewrite H1, H2, H3, !app_nil_r, <- Ho. by destruct a.
    + intros Ho Hl. rewrite add_run. by rewrite bool_decide_eq_true_2.
Qed.

Lemma add_empty_operand_witness :
  __add__ (mkAnnotations [] [] [] (Some (flt 2))) ten_seconds = Ok ten_seconds.
Proof.
  apply (proj1 (add_empty_operand (mkAnnotations [] [] [] (Some (flt 2))) ten_seconds)
           eq_refl eq_refl eq_refl).
Defined.

(** ** The merge and the time origins *)

Lemma shift_spec_both_origins (a b : Annotations) (n fs1 fs2 : Z) (sfreq m m' ta tb : Qc) :
  orig_time a = Some ta -> orig_time b = Some tb ->
  shift_spec a b n fs1 fs2 sfreq m = shift_spec a b n fs1 fs2 sfreq m'.
Proof. intros Ha Hb. unfold shift_spec. rewrite Ha, Hb. ring. Qed.


Lemma valid_with_origin (t : Q) : valid (with_origin t).
Proof. split; [split; reflexivity|]. repeat constructor. Qed.




(** X14. Failures of the merge: with the second set absent nothing is
    computed and the first argument is returned, whatever [sfreq] and
    [meas_date]; with the second set present, a zero [sfreq] raises
    [ZeroDivisionError], and an empty [meas_date] sequence raises
    [IndexError]. *)
Theorem merge_failures (one two : option Annotations)
    (one_n_samples one_first_samp two_first_samp : Z) (sfreq : Qc)
    (meas_date : meas_date_t) :
  let result := _combine_annotations one two one_n_samples one_first_samp two_first_samp
                                     sfreq meas_date in
  (two = None -> result = Ok one) /\
  (two <> None -> sfreq = 0%Qc -> result = Err ZeroDivisionError) /\
  (two <> None -> sfreq <> 0%Qc -> meas_date = MeasSeq [] -> result = Err IndexError).
Proof.
  intros result. subst result. split; [|split].
  - intros ->. by destruct one.
  - intros Htwo ->. destruct two as [b|]; [|done]. by destruct one.
  - intros Htwo Hsf ->. destruct two as [b|]; [|done].
    unfold _combine_annotations. rewrite !(py_div_ok _ sfreq Hsf). by destruct one.
Qed.

(** X15. A time origin given as a sequence: as [meas_date] it is rejected
    ([IndexError]) only when empty, a single element standing for the
    seconds; as [orig_time] of the constructor it is rejected whenever it
    has fewer than two elements; from two elements on both give
    seconds + microseconds / 1000000. *)
Theorem time_origin_sequences (l : list Qc) :
  ((exists e, _handle_meas_date (MeasSeq l) = Err e) <-> l = []) /\
  ((exists e, init_orig_time (OrigSeq l) = Err e) <-> length l < 2) /\
  (2 <= length l ->
     exists t, _handle_meas_date (MeasSeq l) = Ok t /\
               init_orig_time (OrigSeq l) = Ok (Some t)).
Proof.
  destruct l as [|x [|y l]]; simpl.
  - split; [split; eauto|]. split; [split; [lia|eauto]|lia].
  - split; [split; [by intros [? ?]|done]|]. split; [split; [lia|eauto]|lia].
  - split; [split; [by intros [? ?]|done]|]. split; [split; [by intros [? ?]|lia]|eauto].
Qed.

(** ** Annotations on the time axis of the recording *)

Lemma sync_run (raw : Raw) (onset : list Qc) (inverse : bool) (m : Qc) :
  _handle_meas_date (info_meas_date raw) = Ok m ->
  _sync_onset raw onset inverse =
    Ok (match orig_time (annotations raw) with
        | None => onset
        | Some t =>
            map (fun x => ((t - m) - (if inverse then - _first_time raw else _first_time raw)
                           + x)%Qc) onset
        end).
Proof. intros Hm. unfold _sync_onset. rewrite Hm. simpl. by destruct (orig_time _). Qed.



Lemma length_removelast {A : Type} (l : list A) :
  length (removelast l) = length l - 1.
Proof.
  induction l as [|x l IH]; [done|]. destruct l as [|y l]; [done|].
  change (removelast (x :: y :: l)) with (x :: removelast (y :: l)).
  simpl in *. rewrite IH. lia.
Qed.

(** X17. When [_annotations_starts_stops] finds the windows [(on, en)], one
    end per start, the inverted call succeeds too, gives one end per start,
    and never gives an empty answer: between one window and one more than
    there were matches. *)
Theorem inverted_windows_never_empty (raw : Raw) (kinds : list string) (on en : list Z) :
  _annotations_starts_stops raw kinds false = Ok (on, en) ->
  length on = length en ->
  exists os es,
    _annotations_starts_stops raw kinds true = Ok (os, es) /\
    length os = length es /\
    0 < length os <= length on + 1.
Proof.
  intros Hm Hlen.
  rewrite (matched_of_not_inverted raw kinds on en Hm true). cbv zeta.
  pose proof (trailing_decision (Z.of_nat (n_times raw)) on en Hlen) as Ht.
  cbv zeta in Ht.
  replace (match on with [] => true | x :: _ => negb (x =? 0)%Z end)
    with (leading_boundary on) by (by destruct on).
  assert (Hsingle : leading_boundary on = false ->
                    trailing_boundary (Z.of_nat (n_times raw)) en
                    || single_match_at_start on = false -> 2 <= length on).
  { unfold leading_boundary, trailing_boundary, single_match_at_start.
    destruct on as [|x [|x' on]], en as [|y [|y' en]]; simplify_eq/=; try done; try lia. }
  assert (Hne : leading_boundary on = false -> 1 <= length on).
  { unfold leading_boundary. destruct on; simpl; [done|lia]. }
  assert (Hne' : trailing_boundary (Z.of_nat (n_times raw)) en
                 || single_match_at_start on = false -> 1 <= length en).
  { unfold trailing_boundary. destruct en; simpl; [done|lia]. }
  assert (Htail : forall l : list Z, length (tail l) = length l - 1) by (intros []; simpl; lia).
  destruct (leading_boundary on) eqn:Hl; rewrite Ht; cbn [mbind result_bind];
    destruct (trailing_boundary _ en || single_match_at_start on) eqn:Htr;
    eexists _, _; (split; [reflexivity|]);
    rewrite length_removelast, Htail; cbn [length]; rewrite ?length_app; cbn [length];
    try specialize (Hne eq_refl); try specialize (Hne' eq_refl);
    try specialize (Hsingle eq_refl eq_refl);
    (split; [|split]); lia.
Qed.

Lemma inverted_windows_never_empty_witness :
  exists os es,
    _annotations_starts_stops raw_all_bad ["bad"] true = Ok (os, es) /\
    length os = length es /\
    0 < length os <= length [0%Z] + 1.
Proof.
  apply (inverted_windows_never_empty raw_all_bad ["bad"] [0%Z] [10%Z]
           ltac:(vm_compute; reflexivity) eq_refl).
Defined.

(** X18. With no annotation at all, or with annotations none of which starts
    with one of the keywords (the measurement date being readable and the
    recording converting no time to no sample), [_annotations_starts_stops]
    finds no window, and inverted it gives the one window from sample 0 to
    [n_times]: the whole recording. *)
Theorem windows_when_nothing_matches (raw : Raw) (kinds : list string) (m : Qc) :
  len (annotations raw) = 0 \/
  (matching_idxs kinds 0 (description (annotations raw)) = [] /\
   _handle_meas_date (info_meas_date raw) = Ok m /\
   time_as_index raw [] true None = []) ->
  _annotations_starts_stops raw kinds false = Ok ([], []) /\
  _annotations_starts_stops raw kinds true = Ok ([0%Z], [Z.of_nat (n_times raw)]).
Proof.
  intros [Hlen|(Hidx & Hm & Htix)].
  - unfold _annotations_starts_stops. by rewrite Hlen.
  - assert (H : _annotations_starts_stops raw kinds false = Ok ([], [])).
    { unfold _annotations_starts_stops.
      destruct (len (annotations raw) =? 0); [done|].
      rewrite Hidx. cbn [np_take mbind result_bind].
      rewrite (sync_run raw [] false m Hm).
      replace (match orig_time (annotations raw) with
               | Some t => map _ [] | None => [] end) with (@nil Qc)
        by (by destruct (orig_time _)).
      cbn. by rewrite Htix. }
    split; [done|]. by rewrite (matched_of_not_inverted raw kinds [] [] H true).
Qed.

Lemma windows_when_nothing_matches_witness :
  _annotations_starts_stops raw_all_bad ["edge"] false = Ok ([], []) /\
  _annotations_starts_stops raw_all_bad ["edge"] true
    = Ok ([0%Z], [Z.of_nat (n_times raw_all_bad)]).
Proof.
  apply (windows_when_nothing_matches raw_all_bad ["edge"] 0%Qc).
  right. split; [reflexivity|]. split; reflexivity.
Defined.

Lemma matching_idxs_upper (kinds kinds' : list string) (pos : nat) (descs : list string) :
  map upper kinds = map upper kinds' ->
  matching_idxs kinds pos descs = matching_idxs kinds' pos descs.
Proof.
  intros Hk. revert pos. induction descs as [|desc descs IH]; intros pos; simpl; [done|].
  assert (He : forall ks, existsb (fun kind => startswith (upper desc) (upper kind)) ks =
                          existsb (startswith (upper desc)) (map upper ks)).
  { induction ks as [|k ks IHk]; simpl; [done|]. by rewrite IHk. }
  by rewrite !He, Hk, !IH.
Qed.

(** X19. The keywords of [_annotations_starts_stops] are compared in upper
    case: two keyword lists that agree once upper-cased give the same
    windows, inverted or not. *)
Theorem windows_keywords_case_insensitive (raw : Raw) (kinds kinds' : list string)
    (invert : bool) :
  map upper kinds = map upper kinds' ->
  _annotations_starts_stops raw kinds invert = _annotations_starts_stops raw kinds' invert.
Proof.
  intros Hk. unfold _annotations_starts_stops.
  by rewrite (matching_idxs_upper kinds kinds' 0 _ Hk).
Qed.

Lemma windows_keywords_case_insensitive_witness :
  _annotations_starts_stops raw_all_bad ["bad"] true =
  _annotations_starts_stops raw_all_bad ["BaD"] true.
Proof.
  apply (windows_keywords_case_insensitive raw_all_bad ["bad"] ["BaD"] true eq_refl).
Defined.

Lemma argsort_insert_elem (k : Qc) (i : nat) (sorted : list (Qc * nat)) (p : Qc * nat) :
  p ∈ argsort_insert k i sorted <-> p = (k, i) \/ p ∈ sorted.
Proof.
  induction sorted as [|[k' i'] rest IH]; simpl.
  - rewrite list_elem_of_singleton. split; [by left|]. intros [?|H]; [done|].
    by apply elem_of_nil in H.
  - destruct (Qc_ltb k k').
    + by rewrite elem_of_cons.
    + rewrite !elem_of_cons, IH. tauto.
Qed.

Lemma argsort_insert_sorted (k : Qc) (i : nat) (sorted : list (Qc * nat)) :
  Sorted by_key sorted -> Sorted by_key (argsort_insert k i sorted).
Proof.
  induction sorted as [|[k' i'] rest IH]; intros Hs; simpl.
  - by repeat constructor.
  - destruct (Qc_ltb k k') eqn:Hk.
    + constructor; [done|]. constructor. apply Qc_ltb_lt in Hk.
      by apply Qclt_le_weak.
    + apply Qc_ltb_ge in Hk. apply Sorted_inv in Hs as [Hs Hhd].
      constructor; [by apply IH|].
      destruct rest as [|[k'' i''] rest]; simpl.
      * by constructor.
      * destruct (Qc_ltb k k''); constructor; [done|].
        by apply HdRel_inv in Hhd.
Qed.

Lemma argsort_from_spec (keys : list Qc) (pos : nat) :
  Sorted by_key (argsort_from pos keys) /\
  Forall (fun p => exists j, p.2 = pos + j /\ keys !! j = Some p.1) (argsort_from pos keys) /\
  length (argsort_from pos keys) = length keys.
Proof.
  revert pos. induction keys as [|k keys IH]; intros pos; simpl.
  - by repeat constructor.
  - destruct (IH (S pos)) as (IH1 & IH2 & IH3). split; [|split].
    + by apply argsort_insert_sorted.
    + apply Forall_forall. intros p Hp. apply argsort_insert_elem in Hp as [->|Hp].
      * exists 0. split; [simpl; lia|done].
      * rewrite Forall_forall in IH2. destruct (IH2 p Hp) as (j & Hj & Hkj).
        exists (S j). split; [lia|done].
    + clear IH1 IH2. revert IH3. generalize (argsort_from (S pos) keys).
      intros l <-. induction l as [|[k' i'] l IHl]; simpl; [done|].
      destruct (Qc_ltb k k'); simpl; [done|]. by rewrite IHl.
Qed.

Lemma np_take_argsort (keys : list Qc) :
  np_take keys (argsort keys) = Ok (map fst (argsort_from 0 keys)).
Proof.
  unfold argsort. destruct (argsort_from_spec keys 0) as (_ & H & _).
  induction H as [|[k i] l (j & Hj & Hk) _ IH]; simpl; [done|].
  simpl in Hj. subst i. by rewrite Hk, IH.
Qed.



(** ** Events: all kinds of code map *)

Lemma events_with_rows {S : Type} (raw : Raw) (event_id : resolver S) (st : S)
    (regexp : option (string -> bool)) (use_rounding : bool) :
  let a := annotations raw in
  let m := (resolve_loop (pattern_of regexp) event_id st (description a)).1.1 in
  sizes_equal a ->
  length (time_as_index raw (onset a) use_rounding (orig_time a)) = length (onset a) ->
  events_with raw event_id st regexp use_rounding =
    if bool_decide (is_Some regexp) &&
       forallb (fun desc => negb (has_code m desc)) (description a)
    then Err (ValueError NoEventsFound)
    else Ok (omap (event_of_row raw m)
               (zip (time_as_index raw (onset a) use_rounding (orig_time a))
                    (description a)),
             Resolved m).
Proof.
  intros a m [Hs1 Hs2] Htix. unfold events_with. fold a. fold (pattern_of regexp).
  subst m. destruct (resolve_loop _ event_id st (description a)) as [[m dr] u].
  simpl. rewrite length_event_sel.
  assert (Hnone : (count_true (map (has_code m) (description a)) =? 0)%nat =
                  forallb (fun desc => negb (has_code m desc)) (description a)).
  { unfold count_true. clear.
    induction (description a) as [|k l IH]; simpl; [done|].
    destruct (has_code m k); simpl; [done|apply IH]. }
  rewrite Hnone, andb_comm.
  destruct (bool_decide (is_Some regexp) && forallb _ _); [done|].
  rewrite (np_take_event_sel0 m (description a) (description a)) by done.
  cbn [mbind result_bind]. rewrite lookup_all_selected. cbn [mbind result_bind].
  rewrite (np_take_event_sel0 m (description a)).
  2:{ rewrite length_map, Htix. congruence. }
  cbn [mbind result_bind].
  rewrite (event_rows (has_code m) (fun kk => default 0%Z (m !! kk))
             (fun i => (i + first_samp raw)%Z) (event_of_row raw m)).
  - done.
  - rewrite Htix. congruence.
  - intros i desc _. unfold event_of_row, has_code. simpl.
    by destruct (m !! desc) as [v|].
Qed.



Lemma resolve_stateless_fold (p : string -> bool) (f : string -> option Z)
    (d : gmap string Z) (descs : list string) :
  (forall k, k ∈ descs -> d !! k = f k) ->
  forall (m : gmap string Z) (dr dr' : list string),
    (foldl (resolve_step p (IsCallable (ccall (stateless f)))) (m, dr, tt) descs).1.1 =
    (foldl (resolve_step p (IsDict d)) (m, dr', tt) descs).1.1.
Proof.
  induction descs as [|desc descs IH]; intros Hd m dr dr'; [done|].
  cbn [foldl]. assert (Hd' : forall k, k ∈ descs -> d !! k = f k).
  { intros k Hk. apply Hd. by right. }
  unfold resolve_step at 2 4. simpl.
  destruct (bool_decide (is_Some (m !! desc))); [by apply IH|].
  destruct (p desc); simpl; [|by apply IH].
  rewrite (Hd desc) by left. destruct (f desc); by apply IH.
Qed.

(** X22. A callable without state gives the events and the map of the
    mapping that agrees with it on the descriptions of the set. *)
Theorem stateless_callable_as_mapping (raw : Raw) (f : string -> option Z)
    (d : gmap string Z) (regexp : option (string -> bool)) (use_rounding : bool) :
  len (annotations raw) <> 0 ->
  (forall k, k ∈ description (annotations raw) -> d !! k = f k) ->
  events_from_annotations raw (EventIdCallable (stateless f)) regexp use_rounding =
  events_from_annotations raw (EventIdDict d) regexp use_rounding.
Proof.
  intros Hlen Hd. unfold events_from_annotations.
  rewrite (proj2 (Nat.eqb_neq _ _) Hlen). unfold events_with.
  pose proof (resolve_stateless_fold (pattern_of regexp) f d
                (description (annotations raw)) Hd ∅ [] []) as Hm.
  fold (pattern_of regexp). unfold resolve_loop. simpl in *.
  destruct (foldl (resolve_step _ (IsCallable _)) _ _) as [[m1 dr1] u1].
  destruct (foldl (resolve_step _ (IsDict d)) _ _) as [[m2 dr2] u2].
  simpl in Hm. by subst m2.
Qed.

Lemma stateless_callable_as_mapping_witness :
  events_from_annotations raw_aba
    (EventIdCallable (stateless (fun desc => if String.eqb desc "a" then Some 7%Z else None)))
    None true =
  events_from_annotations raw_aba (EventIdDict {["a" := 7%Z]}) None true.
Proof.
  apply (stateless_callable_as_mapping raw_aba _ {["a" := 7%Z]} None true
           ltac:(discriminate)).
  intros k Hk. simpl in Hk.
  repeat (apply elem_of_cons in Hk as [->|Hk]; [by vm_compute|]).
  by apply elem_of_nil in Hk.
Defined.

Lemma resolve_step_grows {S : Type} (p : string -> bool) (event_id : resolver S)
    (acc : gmap string Z * list string * S) (desc k : string) :
  is_Some (acc.1.1 !! k) -> is_Some ((resolve_step p event_id acc desc).1.1 !! k).
Proof.
  unfold resolve_step. destruct acc as [[m dr] st]. simpl. intros Hk.
  destruct (bool_decide _); [done|]. destruct (p desc); simpl; [|done].
  destruct event_id as [d|call].
  - destruct (d !! desc); simpl; [|done].
    destruct (decide (k = desc)) as [->|Hne]; [by rewrite lookup_insert_eq|].
    by rewrite lookup_insert_ne.
  - destruct (call st desc) as [[v|] st']; simpl; [|done].
    destruct (decide (k = desc)) as [->|Hne]; [by rewrite lookup_insert_eq|].
    by rewrite lookup_insert_ne.
Qed.

Lemma resolve_loop_answers (p : string -> bool) (f : callable) (descs : list string)
    (k : string) :
  always_answers f -> k ∈ descs -> p k = true ->
  is_Some ((resolve_loop p (IsCallable (ccall f)) (cinit f) descs).1.1 !! k).
Proof.
  intros Hf. unfold resolve_loop. generalize (∅ : gmap string Z, @nil string, cinit f).
  assert (Hgrow : forall l acc,
            is_Some (acc.1.1 !! k) ->
            is_Some ((foldl (resolve_step p (IsCallable (ccall f))) acc l).1.1 !! k)).
  { induction l as [|desc l IH]; intros acc Hk; [done|].
    simpl. apply IH. by apply resolve_step_grows. }
  induction descs as [|desc descs IH]; intros acc Hin Hp.
  - by apply elem_of_nil in Hin.
  - simpl. apply elem_of_cons in Hin as [->|Hin]; [|by apply IH].
    apply Hgrow. unfold resolve_step. destruct acc as [[m dr] st].
    destruct (bool_decide (is_Some (m !! desc))) eqn:Hm.
    + by apply bool_decide_eq_true_1 in Hm.
    + rewrite Hp. simpl. pose proof (Hf st desc) as Hs.
      destruct (ccall f st desc) as [[v|] st']; simpl in *.
      * by rewrite lookup_insert_eq.
      * by destruct Hs.
Qed.

Lemma events_of_all_rows (raw : Raw) (m : gmap string Z) (descs : list string)
    (tix : list Z) :
  length tix = length descs ->
  (forall k, k ∈ descs -> is_Some (m !! k)) ->
  map (fun e => e.1.1) (omap (event_of_row raw m) (zip tix descs)) =
    map (fun i => (i + first_samp raw)%Z) tix.
Proof.
  revert tix. induction descs as [|desc descs IH]; intros [|i tix] Hl Hall;
    simplify_eq/=; try done.
  destruct (Hall desc) as [v Hv]; [left|].
  unfold event_of_row at 1. simpl. rewrite Hv. simpl. f_equal.
  apply IH; [done|]. intros k Hk. apply Hall. by right.
Qed.



(** ** Reading annotations *)

(** *** Brainstorm events *)

Lemma zip_with_rows (l : string) (t0 t1 : list Qc) :
  length t0 = length t1 ->
  map row_onset (zip_with (fun x y => (x, (y - x)%Qc, l)) t0 t1) = t0 /\
  map row_duration (zip_with (fun x y => (x, (y - x)%Qc, l)) t0 t1) =
    zip_with Qcminus t1 t0 /\
  map row_description (zip_with (fun x y => (x, (y - x)%Qc, l)) t0 t1) =
    replicate (length t0) l.
Proof.
  revert t1. induction t0 as [|x t0 IH]; intros [|y t1] Hl; simplify_eq/=; [done|].
  destruct (IH t1 Hl) as (-> & -> & ->). done.
Qed.

Lemma single_rows (l : string) (t0 : list Qc) :
  map row_onset (map (fun x => (x, 0%Qc, l)) t0) = t0 /\
  map row_duration (map (fun x => (x, 0%Qc, l)) t0) = replicate (length t0) 0%Qc /\
  map row_description (map (fun x => (x, 0%Qc, l)) t0) = replicate (length t0) l.
Proof.
  induction t0 as [|x t0 (IH1 & IH2 & IH3)]; simpl; [done|].
  by rewrite IH1, IH2, IH3.
Qed.

Lemma brainstorm_event_rows (ev : brainstorm_event) :
  well_formed ev ->
  exists t0 l,
    item (times ev) 0 = Ok t0 /\
    get_duration_from_times (times ev) = Ok (map row_duration (brainstorm_rows ev)) /\
    item (label ev) 0 = Ok l /\
    t0 = map row_onset (brainstorm_rows ev) /\
    replicate (length t0) l = map row_description (brainstorm_rows ev).
Proof.
  intros (Hl & Ht & Hrect). unfold brainstorm_rows, get_duration_from_times.
  destruct (label ev) as [|l ls]; [done|].
  destruct (times ev) as [|t0 [|t1 [|t2 rest]]]; [done| | |].
  - exists t0, l. destruct (single_rows l t0) as (-> & -> & ->). done.
  - exists t0, l. specialize (Hrect t0 t1 eq_refl).
    destruct (zip_with_rows l t0 t1 Hrect) as (-> & -> & ->). simpl.
    unfold np_broadcast2. by rewrite Hrect, Nat.eqb_refl.
  - exists t0, l. destruct (single_rows l t0) as (-> & -> & ->). done.
Qed.

Lemma brainstorm_loop_rows (events : list brainstorm_event)
    (onsets durations : list (list Qc)) (descriptions : list string) :
  Forall well_formed events ->
  brainstorm_loop (onsets, durations, descriptions) events =
    Ok (onsets ++ map (fun ev => map row_onset (brainstorm_rows ev)) events,
        durations ++ map (fun ev => map row_duration (brainstorm_rows ev)) events,
        descriptions ++ concat
          (map (fun ev => map row_description (brainstorm_rows ev)) events)).
Proof.
  intros Hwf. revert onsets durations descriptions.
  induction Hwf as [|ev events Hev _ IH]; intros onsets durations descriptions.
  - simpl. by rewrite !app_nil_r.
  - destruct (brainstorm_event_rows ev Hev) as (t0 & l & Ht0 & Hd & Hlab & Hon & Hdesc).
    cbn [brainstorm_loop]. rewrite Ht0, Hd, Hlab. cbn [mbind result_bind].
    rewrite IH. cbn [map concat]. rewrite <- Hon, <- Hdesc. by rewrite <- !app_assoc.
Qed.

Lemma concat_map_map {A B C : Type} (f : B -> C) (g : A -> list B) (l : list A) :
  concat (map (fun x => map f (g x)) l) = map f (concat (map g l)).
Proof. induction l as [|x l IH]; simpl; [done|]. by rewrite map_app, IH. Qed.

(** X24. On events as [io.loadmat] gives them (a label, at least one row of
    times, rows of one length) [read_brainstorm_annotations] fails on an
    empty sequence of events with numpy's 'need at least one array to
    concatenate'; otherwise it fails only in the constructor, on the time
    origin or on a ';' in a label that is used, and returns one row per
    time, in the order of the events: onset the time of the first row,
    duration the difference to the second row when the event has exactly
    two rows of times and zero otherwise, description the label.  The size
    check of the constructor cannot fail. *)
Theorem brainstorm_events_to_rows (events : list brainstorm_event)
    (orig_time : orig_time_arg) :
  Forall well_formed events ->
  read_brainstorm_annotations events orig_time =
    match events with
    | [] => Raises NeedArrayToConcatenate
    | _ =>
        let rows := concat (map brainstorm_rows events) in
        match init_orig_time orig_time with
        | Err e => Raises (Other e)
        | Ok t =>
            if existsb (contains_char semicolon) (map row_description rows)
            then Raises (Other (ValueError SemicolonInDescription))
            else Returns (of_rows rows t)
        end
    end.
Proof.
  intros Hwf. unfold read_brainstorm_annotations.
  rewrite brainstorm_loop_rows by done. destruct events as [|ev events]; [done|].
  cbn [app]. unfold np_concatenate. cbn [map].
  change (?x :: map ?f events) with (map f (ev :: events)).
  rewrite !concat_map_map. cbv zeta.
  generalize (concat (map brainstorm_rows (ev :: events))). intros rows.
  unfold __init__. destruct (init_orig_time orig_time) as [t|e]; [|done].
  cbn [mbind result_bind]. rewrite !length_map, Nat.eqb_refl. simpl.
  by destruct (existsb _ _).
Qed.

Lemma brainstorm_events_to_rows_witness :
  read_brainstorm_annotations
    [mkBrainstormEvent ["blink"] [[flt 1; flt 5]];
     mkBrainstormEvent ["bad"] [[flt 2]; [flt 4]]] OrigNone =
    Returns (mkAnnotations [flt 1; flt 5; flt 2] [0%Qc; 0%Qc; (flt 4 - flt 2)%Qc]
               ["blink"; "blink"; "bad"] None).
Proof.
  rewrite (brainstorm_events_to_rows
             [mkBrainstormEvent ["blink"] [[flt 1; flt 5]];
              mkBrainstormEvent ["bad"] [[flt 2]; [flt 4]]] OrigNone).
  - reflexivity.
  - repeat constructor; try done; simpl; intros ? ? [= <- <-]; done.
Defined.

(** *** Annotation blocks *)

Lemma unescape_has_no_semicolon (d : string) :
  contains_char semicolon (replace_char semicolon colon d) = false.
Proof.
  induction d as [|c d IH]; simpl; [done|].
  destruct (Ascii.eqb c semicolon) eqn:Hc; simpl; [done|]. by rewrite Hc.
Qed.

Lemma split_char_not_nil (sep : ascii) (s : string) : split_char sep s <> [].
Proof.
  induction s as [|c s IH]; simpl; [done|].
  destruct (Ascii.eqb c sep); [done|]. by destruct (split_char sep s).
Qed.

Lemma read_entry_descriptions (acc acc' : list Qc * list Qc * list string * option Qc)
    (ent : tag) :
  read_entry acc ent = Ok acc' ->
  (Forall (fun d => contains_char semicolon d = false) acc.1.2 ->
   Forall (fun d => contains_char semicolon d = false) acc'.1.2) /\
  (acc.1.2 <> [] \/ (exists data, ent = FIFF_COMMENT data) -> acc'.1.2 <> []).
Proof.
  destruct acc as [[[on du] de] ot].
  destruct ent as [data|[data|]|data|data|]; simpl;
    try (destruct (np_broadcast2 Qcminus data on); simpl; [|done]);
    intros [= <-]; simpl;
    try (split; [done|]; intros [?|[? ?]]; done).
  split.
  - intros _. apply Forall_forall. intros d Hd.
    apply list_elem_of_fmap in Hd as (d' & -> & _). apply unescape_has_no_semicolon.
  - intros _ H. apply fmap_nil_inv in H. by apply split_char_not_nil in H.
Qed.

Lemma read_entries_descriptions (directory : list tag)
    (acc acc' : list Qc * list Qc * list string * option Qc) :
  read_entries acc directory = Ok acc' ->
  (Forall (fun d => contains_char semicolon d = false) acc.1.2 ->
   Forall (fun d => contains_char semicolon d = false) acc'.1.2) /\
  (acc.1.2 <> [] \/ has_comment directory = true -> acc'.1.2 <> []).
Proof.
  revert acc. induction directory as [|ent directory IH]; intros acc.
  - intros [= <-]. split; [done|]. by intros [H|H].
  - cbn [read_entries]. intros H. apply bind_ok_inv in H as (acc1 & H1 & H).
    apply read_entry_descriptions in H1 as [H1a H1b].
    apply IH in H as [Ha Hb]. split; [by intros; apply Ha, H1a|].
    intros [Hne|Hc].
    + apply Hb. left. apply H1b. by left.
    + apply Hb. simpl in Hc. destruct ent; simpl in Hc;
        try (right; exact Hc). left. apply H1b. right. by eexists.
Qed.

Lemma read_entries_errors (directory : list tag)
    (acc : list Qc * list Qc * list string * option Qc) (e : exn) :
  read_entries acc directory = Err e -> e = ValueError NpBroadcast.
Proof.
  revert acc. induction directory as [|ent directory IH]; intros acc; [done|].
  cbn [read_entries]. destruct (read_entry acc ent) as [acc1|e1] eqn:H1.
  - cbn [mbind result_bind]. apply IH.
  - cbn [mbind result_bind]. intros [= <-].
    destruct acc as [[[on du] de] ot]. destruct ent as [data|[data|]|data|data|];
      simplify_eq/=.
    destruct (np_broadcast2 Qcminus data on) as [d|e] eqn:Hb; simplify_eq/=.
    unfold np_broadcast2 in Hb. destruct (length data =? length on); [discriminate Hb|].
    destruct data as [|x [|y data]], on as [|x' [|y' on]]; congruence.
Qed.

Lemma read_block (directory : list tag) (more : list (list tag))
    (onset duration : list Qc) (description : list string) (orig_time : option Qc) :
  read_entries ([], [], [], None) directory = Ok (onset, duration, description, orig_time) ->
  _read_annotations (directory :: more) =
    if negb ((length onset =? length duration)%nat
             && (length duration =? length description)%nat)
    then Raises AssertionError
    else Returns (Some (mkAnnotations onset duration description orig_time)).
Proof.
  intros H. pose proof (read_entries_descriptions _ _ _ H) as [Hsemi _].
  unfold _read_annotations. rewrite H.
  destruct (negb _) eqn:Hlen; [done|]. unfold __init__.
  assert (Hot : init_orig_time (orig_time_as_arg orig_time) = Ok orig_time)
    by (by destruct orig_time).
  rewrite Hot. cbn [mbind result_bind]. rewrite Hlen.
  destruct (existsb _ description) eqn:He; [|done].
  apply existsb_semicolon, Exists_exists in He as (d & Hd & Hc).
  specialize (Hsemi ltac:(constructor)). rewrite Forall_forall in Hsemi.
  simpl in Hsemi. rewrite (Hsemi d Hd) in Hc. discriminate.
Qed.





